(** * The data301 notebooks: negative log-likelihood and notebook structure

    The repository is a set of Jupyter notebooks: a widget tour, a modelling
    overview, a SciPy overview and an introduction to maximum likelihood
    estimation (08-MLE.ipynb).  This development has two parts.

    - The one numerical function the repository defines, [neg_log_llh], the
      negative log-likelihood of the normal distribution, is embedded
      together with the Python and numpy primitives it calls, and the
      formulas of the MLE notebook are proved about it.
    - The notebooks themselves are embedded as lists of cells holding Python
      syntax trees, with an interpreter that resolves names and records the
      library calls a run makes.

    Numbers.  Finite float64 values are modelled by the real numbers [R]:
    rounding and overflow are abstracted away, zero is unsigned.  The special
    values that numpy produces outside the domain of a primitive ([inf],
    [-inf], [nan]) are kept, because the function has no guard and lets
    them flow through its arithmetic.  That is the reading in which the
    formulas of the notebook are stated and proved.

    Which branch a call reaches, and whether what it returns is a finite
    number, is decided by the float64 arithmetic the code runs in: there
    [neg_log_llh] is embedded a second time, over IEEE 754 binary64 values
    with rounding, overflow and signed zeros ([neg_log_llh64]). *)

From Stdlib Require Import String ZArith QArith Qreals Reals Lra Lia List Bool.
From Stdlib Require Import Permutation.
From Stdlib Require Import SpecFloat.
Import ListNotations.

Set Warnings "-register-all".

(** ** Values, exceptions and the evaluation monad *)

(** A float64 as numpy sees it: a finite value or one of the three specials. *)
Inductive float64 : Type :=
| Fin (r : R)
| PInf
| NInf
| NaN.

(** The two kinds of scalar [theta] can hold.  A list or tuple literal holds
    Python floats (cells [neg_log_llh([1.0,1.0], data)] and [print_log_llh]);
    under [scipy.optimize.minimize] the vector is an ndarray and its items are
    numpy float64 scalars.  They differ in what division by zero does. *)
Inductive scalar : Type :=
| PyFloat
| NpFloat64.

(** Exceptions the primitives can raise. *)
Inductive exn : Type :=
| IndexError
| ZeroDivisionError.

(** Calls of primitives whose mathematical domain is partial, recorded in
    evaluation order with the arguments they received. *)
Inductive primcall : Type :=
| LogOf (x : R)
| Divide (num den : R).

(** A computation yields the primitive calls it performed and then either
    the exception that stopped it or its value. *)
Definition M (A : Type) : Type := (list primcall * (exn + A))%type.

Definition ret {A : Type} (a : A) : M A := ([], inr a).

Definition raise {A : Type} (e : exn) : M A := ([], inl e).

Definition bind {A B : Type} (m : M A) (f : A -> M B) : M B :=
  match m with
  | (t, inl e) => (t, inl e)
  | (t, inr a) => let (t', r) := f a in (t ++ t', r)
  end.

Notation "x <- c ;; k" := (bind c (fun x => k))
  (at level 61, c at next level, right associativity).

Definition calls {A : Type} (m : M A) : list primcall := fst m.

Definition outcome {A : Type} (m : M A) : exn + A := snd m.

Local Open Scope R_scope.

(** ** float64 arithmetic on the specials (IEEE 754 rules) *)

Definition fmul (a b : float64) : float64 :=
  match a, b with
  | NaN, _ | _, NaN => NaN
  | Fin x, Fin y => Fin (x * y)
  | Fin x, PInf | PInf, Fin x =>
      if Rlt_dec 0 x then PInf else if Rlt_dec x 0 then NInf else NaN
  | Fin x, NInf | NInf, Fin x =>
      if Rlt_dec 0 x then NInf else if Rlt_dec x 0 then PInf else NaN
  | PInf, PInf | NInf, NInf => PInf
  | PInf, NInf | NInf, PInf => NInf
  end.

Definition fadd (a b : float64) : float64 :=
  match a, b with
  | NaN, _ | _, NaN => NaN
  | Fin x, Fin y => Fin (x + y)
  | PInf, NInf | NInf, PInf => NaN
  | PInf, _ | _, PInf => PInf
  | NInf, _ | _, NInf => NInf
  end.

(** ** The primitives [neg_log_llh] calls *)

(** [seq[i]] on a Python sequence, for the non-negative constant indices the
    function uses: [IndexError] past the end. *)
Definition getitem (theta : list R) (i : nat) : M R :=
  match nth_error theta i with
  | Some v => ret v
  | None => raise IndexError
  end.

(** [len(data)], as the float it becomes in [0.5*n]. *)
Definition len (data : list R) : R := INR (length data).

(** [np.log]: never raises; [-inf] at zero and [nan] below it. *)
Definition np_log (x : R) : M float64 :=
  ([LogOf x],
   inr (if Rlt_dec 0 x then Fin (ln x)
        else if Rlt_dec x 0 then NaN else NInf)).

(** [a / b].  Python floats raise [ZeroDivisionError] on a zero divisor;
    numpy float64 scalars return a signed infinity, or [nan] for [0/0]. *)
Definition truediv (k : scalar) (a b : R) : M float64 :=
  ([Divide a b],
   if Req_dec_T b 0 then
     match k with
     | PyFloat => inl ZeroDivisionError
     | NpFloat64 =>
         inr (if Rlt_dec 0 a then PInf else if Rlt_dec a 0 then NInf else NaN)
     end
   else inr (Fin (a / b))).

(** [data - mu]: the scalar is broadcast over the array. *)
Definition ndarray_sub (data : list R) (mu : R) : list R :=
  map (fun x => x - mu) data.

(** [a ** 2], elementwise. *)
Definition ndarray_sq (a : list R) : list R :=
  map (fun y => y ^ 2) a.

(** [np.sum]: [0.0] on the empty array. *)
Definition np_sum (a : list R) : R := fold_right Rplus 0 a.

(** ** [neg_log_llh] (08-MLE.ipynb, cell 12)

<<
    mu = theta[0]
    sigma2 = theta[1]
    n = len(data)
    result = 0.5*n*np.log(2.0*np.pi*sigma2) + (1.0/(2.0*sigma2))*np.sum((data-mu)**2)
    return result
>>
    Python evaluates the operands of [+] and [*] left to right: the logarithm
    is taken before the division is attempted. *)
Definition neg_log_llh (k : scalar) (theta data : list R) : M float64 :=
  mu <- getitem theta 0 ;;
  sigma2 <- getitem theta 1 ;;
  let n := len data in
  lg <- np_log (2.0 * PI * sigma2) ;;
  q <- truediv k 1.0 (2.0 * sigma2) ;;
  let result :=
    fadd (fmul (Fin (0.5 * n)) lg)
         (fmul q (Fin (np_sum (ndarray_sq (ndarray_sub data mu))))) in
  ret result.

(** ** The formulas of section 2 of the notebook *)

(** The normal probability density
    [P(x | mu, sigma^2) = 1/sqrt(2 pi sigma^2) * exp(-(x-mu)^2 / (2 sigma^2))]. *)
Definition normal_pdf (mu sigma2 x : R) : R :=
  1 / sqrt (2 * PI * sigma2) * exp (- (x - mu) ^ 2 / (2 * sigma2)).

(** The closed form
    [n/2 * ln(2 pi sigma^2) + 1/(2 sigma^2) * sum_i (x_i - mu)^2]. *)
Definition nll_closed_form (mu sigma2 : R) (data : list R) : R :=
  INR (length data) / 2 * ln (2 * PI * sigma2)
  + 1 / (2 * sigma2) * np_sum (map (fun x => (x - mu) ^ 2) data).

(** The negative sum of the log-probabilities of the data points. *)
Definition neg_sum_log_pdf (mu sigma2 : R) (data : list R) : R :=
  - np_sum (map (fun x => ln (normal_pdf mu sigma2 x)) data).

(** ** Sample statistics (08-MLE.ipynb, cell 31: [data.mean()], [data.var()]) *)

(** [ndarray.mean()]: the sum over the number of elements; [nan] on an empty
    array. *)
Definition ndarray_mean (a : list R) : float64 :=
  match a with
  | [] => NaN
  | _ :: _ => Fin (np_sum a / INR (length a))
  end.

(** [ndarray.var()] with its default [ddof=0], the population variance:
    [mean(abs(a - a.mean())**2)]. *)
Definition ndarray_var (a : list R) : float64 :=
  match ndarray_mean a with
  | Fin m => Fin (np_sum (map (fun x => Rabs (x - m) ^ 2) a) / INR (length a))
  | other => other
  end.

(** The array holds at least two distinct values. *)
Definition two_distinct (data : list R) : Prop :=
  exists a b, In a data /\ In b data /\ a <> b.

(** ** The recorded example (08-MLE.ipynb, cells 13 and 23)

    The array as the output of cell 23 records it, and the value recorded as
    the output of [neg_log_llh([1.0,1.0], data)] in cell 13. *)

Definition recorded_data : list R :=
  [5.63718474; 5.6131166; 2.41177486; 3.05844157; 4.50904427;
   3.92805543; 3.53099871; 3.09952093; 7.64147207; 4.71951771;
   5.1585242; 5.74035561; 5.22027127; 3.9179357; 6.40416901;
   5.08299154; 4.80238971; 5.81449738; 4.7751317; 4.93848464;
   3.31444849; 5.88102905; 5.49985917; 5.32210907; 3.41205537;
   3.56850722; 6.66377822; 7.79015438; 5.10943809; 5.77202018;
   5.68894746; 3.13521042; 3.63525525; 5.18329347; 6.16382942;
   6.38111525; 3.90336604; 4.56637821; 5.17478975; 2.89866201;
   4.18542882; 4.59276915; 6.13769554; 5.16900946; 3.60472348;
   1.37431963; 3.09977926; 6.20284219; 3.96879649; 6.64977565].

Definition recorded_output : R := 451.52579798454957.

(** ** Rational enclosures of [PI] and of [exp]

    Partial sums of alternating series, computed over [Q]: Machin-like series
    [PI/4 = 2 atan(1/3) + atan(1/7)] and the exponential series at a negative
    argument. *)

Fixpoint powQ (y : Q) (k : nat) : Q :=
  match k with
  | O => 1%Q
  | S k' => (y * powQ y k')%Q
  end.

Fixpoint factZ (k : nat) : Z :=
  match k with
  | O => 1%Z
  | S k' => (Z.of_nat (S k') * factZ k')%Z
  end.

Definition signQ (k : nat) : Q := if Nat.even k then 1%Q else (-1)%Q.

Fixpoint alt_sumQ (u : nat -> Q) (n : nat) : Q :=
  match n with
  | O => u O
  | S k => (alt_sumQ u k + signQ (S k) * u (S k))%Q
  end.

Definition exp_termQ (y : Q) (k : nat) : Q :=
  (powQ y k / inject_Z (factZ k))%Q.

Definition atan_termQ (x : Q) (k : nat) : Q :=
  (powQ x (2 * k + 1) / inject_Z (Z.of_nat (2 * k + 1)))%Q.

Definition pi_termQ (k : nat) : Q :=
  (2 * atan_termQ (1 # 3) k + atan_termQ (1 # 7) k)%Q.

Definition pi_lo : Q := (4 * alt_sumQ pi_termQ 11)%Q.
Definition pi_hi : Q := (4 * alt_sumQ pi_termQ 10)%Q.
Definition ln2pi_lo : Q := (18378770660 # 10000000000)%Q.
Definition ln2pi_hi : Q := (18378770668 # 10000000000)%Q.
Definition half (q : Q) : Q := (q / 2)%Q.

Definition exp_neg_hi (y : Q) : Q := alt_sumQ (exp_termQ y) 16.
Definition exp_neg_lo (y : Q) : Q := alt_sumQ (exp_termQ y) 17.

(** * Further code: the TensorFlow route *)


(** ** The TensorFlow objective (08-MLE.ipynb, cell 53)

<<
    model = dist.Normal(mu, sigma)
    nll = tf.reduce_sum(-1.0*model.log_pdf(x))
>>
*)

(** [dist.Normal(mu, sigma).log_pdf(x)]:
    [-0.5*((x-mu)/sigma)**2 - 0.5*log(2 pi) - log(sigma)], which is [nan]
    when [sigma] is not positive. *)
Definition normal_log_pdf (mu sigma x : R) : float64 :=
  if Rlt_dec 0 sigma
  then Fin (- (((x - mu) / sigma) ^ 2) / 2 - ln (2 * PI) / 2 - ln sigma)
  else NaN.

(** [tf.reduce_sum]: [0.0] on the empty tensor. *)
Definition reduce_sum (a : list float64) : float64 :=
  fold_right fadd (Fin 0) a.

Definition tf_nll (mu sigma : R) (data : list R) : float64 :=
  reduce_sum
    (map (fun x => fmul (Fin (-1.0)) (normal_log_pdf mu sigma x)) data).

(** ** One step of gradient descent (cells 57, 58 and 60)

<<
    optimizer = tf.train.GradientDescentOptimizer(0.01)
    train = optimizer.minimize(nll)
>>
    Each [sess.run(train, {x: data})] replaces every variable by itself minus
    the learning rate times the partial derivative of [nll] in it. *)
Definition gradient : Type := R -> R -> list R -> R * R.

Definition train_step (grad : gradient) (rate : R) (data : list R)
  (p : R * R) : R * R :=
  let '(mu, sigma) := p in
  let '(g_mu, g_sigma) := grad mu sigma data in
  (mu - rate * g_mu, sigma - rate * g_sigma).

(** The value of the objective as a real number, where it is finite. *)
Definition tf_nll_value (mu sigma : R) (data : list R) : R :=
  nll_closed_form mu (sigma ^ 2) data.

(** [grad] returns the partial derivatives of the objective wherever [sigma]
    is positive: what automatic differentiation computes. *)
Definition is_gradient_of_nll (grad : gradient) : Prop :=
  forall (mu sigma : R) (data : list R),
    0 < sigma ->
    derivable_pt_lim (fun m => tf_nll_value m sigma data) mu
      (fst (grad mu sigma data))
    /\ derivable_pt_lim (fun s => tf_nll_value mu s data) sigma
         (snd (grad mu sigma data)).

(** The partial derivatives in closed form. *)
Definition nll_gradient : gradient :=
  fun mu sigma data =>
    (- np_sum (map (fun x => x - mu) data) / sigma ^ 2,
     INR (length data) / sigma
     - np_sum (map (fun x => (x - mu) ^ 2) data) / sigma ^ 3).

(** * [neg_log_llh] in float64 arithmetic

    Which branch a call reaches, and whether its result is a finite number,
    depends on overflow and on the sign of a zero, which exact arithmetic
    does not have.  For these questions the function is embedded a second
    time, over IEEE 754 binary64 values with the operations of the standard
    library's specification: round to nearest, ties to even, overflow to an
    infinity, signed zeros.

    [np.log] is library code.  What it returned is an argument of the run,
    constrained by [np_log_may_return]. *)

Local Open Scope Z_scope.

Definition f64 : Type := spec_float.

Definition prec64 : Z := 53.
Definition emax64 : Z := 1024.

Definition f64_mul : f64 -> f64 -> f64 := SFmul prec64 emax64.
Definition f64_add : f64 -> f64 -> f64 := SFadd prec64 emax64.
Definition f64_sub : f64 -> f64 -> f64 := SFsub prec64 emax64.
Definition f64_div : f64 -> f64 -> f64 := SFdiv prec64 emax64.

(** A float64 that can occur: its mantissa and exponent are in range. *)
Definition f64_valid (x : f64) : bool := valid_binary prec64 emax64 x.

(** The float nearest to an integer: [float(n)], and a literal such as
    [1e200]. *)
Definition f64_of_Z (n : Z) : f64 := binary_normalize prec64 emax64 n 0 false.

(** The literals [0.0], [0.5], [1.0], [2.0] and the constant [np.pi],
    [0x1.921fb54442d18p+1]. *)
Definition f64_zero : f64 := S754_zero false.
Definition f64_half : f64 := S754_finite false 4503599627370496 (-53).
Definition f64_one : f64 := S754_finite false 4503599627370496 (-52).
Definition f64_two : f64 := S754_finite false 4503599627370496 (-51).
Definition f64_pi : f64 := S754_finite false 7074237752028440 (-51).

Definition f64_is_nan (x : f64) : bool :=
  match x with
  | S754_nan => true
  | _ => false
  end.

Definition f64_is_zero (x : f64) : bool :=
  match x with
  | S754_zero _ => true
  | _ => false
  end.

(** Zero or a finite non-zero number: not an infinity, not [nan]. *)
Definition f64_is_finite (x : f64) : bool :=
  match x with
  | S754_zero _ | S754_finite _ _ _ => true
  | _ => false
  end.

(** The sign bit. *)
Definition f64_signbit (x : f64) : bool :=
  match x with
  | S754_zero s | S754_infinity s | S754_finite s _ _ => s
  | S754_nan => false
  end.

(** [x > 0] and [x < 0], infinities included. *)
Definition f64_positive (x : f64) : bool :=
  match x with
  | S754_finite false _ _ | S754_infinity false => true
  | _ => false
  end.

Definition f64_negative (x : f64) : bool :=
  match x with
  | S754_finite true _ _ | S754_infinity true => true
  | _ => false
  end.

(** [np.log x] may be [y]: [nan] below zero and at [nan], [-inf] at both
    zeros, [inf] at [inf], and a finite float at a positive finite [x], not
    negative when [x >= 1]. *)
Definition np_log_may_return (x y : f64) : bool :=
  match x with
  | S754_nan | S754_infinity true | S754_finite true _ _ => f64_is_nan y
  | S754_zero _ =>
      match y with
      | S754_infinity true => true
      | _ => false
      end
  | S754_infinity false =>
      match y with
      | S754_infinity false => true
      | _ => false
      end
  | S754_finite false _ _ =>
      f64_is_finite y && f64_valid y
      && (negb (SFleb f64_one x) || negb (f64_signbit y))
  end.

(** [a / b]: Python floats raise [ZeroDivisionError] on a zero divisor of
    either sign; numpy float64 scalars divide as IEEE 754 does. *)
Definition truediv64 (k : scalar) (a b : f64) : exn + f64 :=
  match k, b with
  | PyFloat, S754_zero _ => inl ZeroDivisionError
  | _, _ => inr (f64_div a b)
  end.

(** [np.sum] of a one-dimensional array: [0.0] when empty, else the elements
    added up starting from the first.  (numpy adds longer arrays pairwise;
    that changes the rounding of the sum, on which nothing below depends.) *)
Definition np_sum64 (a : list f64) : f64 :=
  match a with
  | [] => f64_zero
  | x :: rest => fold_left f64_add rest x
  end.

(** [(data - mu)**2]; numpy squares by multiplying. *)
Definition sq_dev64 (data : list f64) (mu : f64) : list f64 :=
  map (fun x => let d := f64_sub x mu in f64_mul d d) data.

(** The argument [2.0*np.pi*sigma2] of [np.log] and the divisor
    [2.0*sigma2]. *)
Definition log_argument64 (sigma2 : f64) : f64 :=
  f64_mul (f64_mul f64_two f64_pi) sigma2.

Definition divisor64 (sigma2 : f64) : f64 := f64_mul f64_two sigma2.

(** The function of cell 12, in evaluation order; [lg] is what
    [np.log(2.0*np.pi*sigma2)] returned. *)
Definition neg_log_llh64 (k : scalar) (theta data : list f64) (lg : f64)
  : exn + f64 :=
  match nth_error theta 0 with
  | None => inl IndexError
  | Some mu =>
      match nth_error theta 1 with
      | None => inl IndexError
      | Some sigma2 =>
          let n := f64_of_Z (Z.of_nat (length data)) in
          let first := f64_mul (f64_mul f64_half n) lg in
          match truediv64 k f64_one (divisor64 sigma2) with
          | inl e => inl e
          | inr q =>
              inr (f64_add first (f64_mul q (np_sum64 (sq_dev64 data mu))))
          end
      end
  end.

(** The literal [1e200], and [np.log(2.0*np.pi)] as numpy returns it,
    [0x1.d67f1c864beb4p+0]. *)
Definition f64_1e200 : f64 := f64_of_Z (10 ^ 200).
Definition f64_ln_2pi : f64 := S754_finite false 8277062471433908 (-52).

Local Close Scope Z_scope.

(** * The notebooks as programs

    A notebook is a list of cells run top to bottom in one kernel.  The code
    cells are kept as Python syntax trees, so that what a cell defines, which
    names it reads and binds, and how often a loop body runs are computed from
    the source rather than asserted. *)

Local Close Scope R_scope.
Local Open Scope string_scope.

(** ** Syntax of the Python fragment *)

Inductive binop : Type := Add | Sub | Mult | Div | Pow.

Inductive expr : Type :=
| Name (id : string)
| IntLit (n : Z)
| FloatLit (lit : string)
| StrLit (s : string)
| BoolLit (b : bool)
| Attribute (value : expr) (attr : string)
| Subscript (value index : expr)
| Call (func : expr) (args : list expr) (keywords : list (string * expr))
| BinOp (left : expr) (op : binop) (right : expr)
| UnaryMinus (operand : expr)
| ListE (elts : list expr)
| TupleE (elts : list expr)
| DictE (items : list (expr * expr))
| Lambda (params : list string) (body : expr).

(** [Import m a] is [import m as a] ([a] is the name the statement binds);
    [Magic] is an IPython line magic and [Help e] the IPython query [e??]. *)
Inductive stmt : Type :=
| Import (module bound : string)
| ImportFrom (module : string) (names : list (string * string))
| ImportStar (module : string)
| Magic (line : string)
| Help (value : expr)
| Assign (target value : expr)
| Expr (value : expr)
| FunctionDef (name : string) (params : list string) (body : list stmt)
| Return (value : expr)
| For (target : string) (iter : expr) (body : list stmt)
| If (test : expr) (body orelse : list stmt)
| Try (body : list stmt) (handlers : list (list stmt))
| Raise (exc : expr)
| Assert (test : expr).

(** A markdown cell is kept by the opening words of its prose. *)
Inductive cell : Type :=
| Markdown (opening : string)
| Code (source : list stmt).

Definition notebook : Type := list cell.

Definition mem (x : string) (l : list string) : bool :=
  existsb (String.eqb x) l.

(** ** What a cell is made of *)

(** Names of the functions a notebook defines itself. *)
Definition defined_in_cell (c : cell) : list string :=
  match c with
  | Markdown _ => []
  | Code src =>
      flat_map (fun s => match s with
                         | FunctionDef f _ _ => [f]
                         | _ => []
                         end) src
  end.

Definition defined_functions (nb : notebook) : list string :=
  flat_map defined_in_cell nb.

(** The expression reads one of the names in [own]. *)
Fixpoint mentions (own : list string) (e : expr) : bool :=
  match e with
  | Name x => mem x own
  | IntLit _ | FloatLit _ | StrLit _ | BoolLit _ => false
  | Attribute v _ => mentions own v
  | Subscript v i => mentions own v || mentions own i
  | Call f args kws =>
      mentions own f || existsb (mentions own) args
      || existsb (fun kw => mentions own (snd kw)) kws
  | BinOp a _ b => mentions own a || mentions own b
  | UnaryMinus a => mentions own a
  | ListE es | TupleE es => existsb (mentions own) es
  | DictE kvs =>
      existsb (fun kv => mentions own (fst kv) || mentions own (snd kv)) kvs
  | Lambda _ b => mentions own b
  end.

(** The expression contains an arithmetic operator. *)
Fixpoint has_arith (e : expr) : bool :=
  match e with
  | Name _ | IntLit _ | FloatLit _ | StrLit _ | BoolLit _ => false
  | Attribute v _ => has_arith v
  | Subscript v i => has_arith v || has_arith i
  | Call f args kws =>
      has_arith f || existsb has_arith args
      || existsb (fun kw => has_arith (snd kw)) kws
  | BinOp _ _ _ => true
  | UnaryMinus a => has_arith a
  | ListE es | TupleE es => existsb has_arith es
  | DictE kvs => existsb (fun kv => has_arith (fst kv) || has_arith (snd kv)) kvs
  | Lambda _ b => has_arith b
  end.

(** A statement that only imports, assigns, displays or calls code that is
    not the notebook's own: no function definition, no branch, no handler,
    and no use of a function listed in [own]. *)
Fixpoint library_only (own : list string) (s : stmt) : bool :=
  match s with
  | Import _ _ | ImportFrom _ _ | ImportStar _ | Magic _ => true
  | Help v | Expr v | Return v => negb (mentions own v)
  | Assign t v => negb (mentions own t) && negb (mentions own v)
  | For _ it body => negb (mentions own it) && forallb (library_only own) body
  | FunctionDef _ _ _ => false
  | If _ _ _ | Try _ _ | Raise _ | Assert _ => false
  end.

Definition cell_library_only (own : list string) (c : cell) : bool :=
  match c with
  | Markdown _ => true
  | Code src => forallb (library_only own) src
  end.

(** The statement, or a statement nested in it, validates input or handles
    an error: a branch, a handler, a raise or an assertion. *)
Fixpoint guards (s : stmt) : bool :=
  match s with
  | If _ _ _ | Try _ _ | Raise _ | Assert _ => true
  | FunctionDef _ _ body | For _ _ body => existsb guards body
  | _ => false
  end.

Definition cell_guards (c : cell) : bool :=
  match c with
  | Markdown _ => false
  | Code src => existsb guards src
  end.

Fixpoint stmt_has_arith (s : stmt) : bool :=
  match s with
  | Help v | Expr v | Return v | Raise v | Assert v => has_arith v
  | Assign t v => has_arith t || has_arith v
  | FunctionDef _ _ body => existsb stmt_has_arith body
  | For _ it body => has_arith it || existsb stmt_has_arith body
  | If c a b => has_arith c || existsb stmt_has_arith a || existsb stmt_has_arith b
  | Try body hs => existsb stmt_has_arith body || existsb (existsb stmt_has_arith) hs
  | _ => false
  end.

Definition cell_has_arith (c : cell) : bool :=
  match c with
  | Markdown _ => false
  | Code src => existsb stmt_has_arith src
  end.

(** Indices of the cells that satisfy [p]. *)
Definition cells_where (p : cell -> bool) (nb : notebook) : list nat :=
  map fst (filter (fun ic => p (snd ic)) (combine (seq 0 (length nb)) nb)).

(** ** Running a notebook: which names are bound, which calls are made

    The kernel keeps the names bound at module level, the functions the
    notebook defined, and the library calls made so far.  Imports and library
    calls are taken to succeed, as they did in the environment the notebooks
    were recorded in; what is tracked is name resolution, which is decided by
    the notebook alone. *)

Record kernel : Type := mk_kernel {
  globals : list string;
  functions : list (string * (list string * list stmt));
  star : bool;
  trace : list string
}.

Definition fresh_kernel : kernel :=
  {| globals := []; functions := []; star := false; trace := [] |}.

(** The builtins the notebooks use. *)
Definition builtins : list string := ["print"; "len"; "range"; "sorted"].

Inductive fault : Type :=
| NameError (name : string)
| UnboundLocalError (name : string)
| Unsupported
| OutOfFuel.

Inductive res (A : Type) : Type :=
| Ok (a : A)
| Fault (f : fault).

Arguments Ok {A} a.
Arguments Fault {A} f.

Definition bind_res {A B : Type} (r : res A) (k : A -> res B) : res B :=
  match r with
  | Ok a => k a
  | Fault f => Fault f
  end.

Notation "x <-- c ;; k" := (bind_res c (fun x => k))
  (at level 61, c at next level, right associativity).

(** The local scope of a running function body: the names bound so far, and
    the names the body assigns somewhere, which Python treats as local from
    the start. *)
Record locals : Type := mk_locals {
  bound_now : list string;
  assigned : list string
}.

(** [None] at module level, [Some] inside a function body. *)
Definition scope : Type := option locals.

(** Python looks a name up in the local scope, then the module's globals,
    then the builtins.  A local read before its assignment is an
    [UnboundLocalError].  After [from m import *] any name may be bound. *)
Definition lookup (K : kernel) (L : scope) (x : string) : res kernel :=
  let global := mem x (globals K) || mem x builtins || star K in
  match L with
  | Some l =>
      if mem x (bound_now l) then Ok K
      else if mem x (assigned l) then Fault (UnboundLocalError x)
      else if global then Ok K else Fault (NameError x)
  | None => if global then Ok K else Fault (NameError x)
  end.

Definition is_local (L : scope) (x : string) : bool :=
  match L with
  | Some l => mem x (bound_now l) || mem x (assigned l)
  | None => false
  end.

Definition unbind_function (x : string)
  (fs : list (string * (list string * list stmt))) :=
  filter (fun f => negb (String.eqb x (fst f))) fs.

Definition bind_name (K : kernel) (L : scope) (x : string) : kernel * scope :=
  match L with
  | Some l =>
      (K, Some {| bound_now := x :: bound_now l; assigned := assigned l |})
  | None =>
      ({| globals := x :: globals K;
          functions := unbind_function x (functions K);
          star := star K;
          trace := trace K |}, None)
  end.

Definition bind_names (K : kernel) (L : scope) (xs : list string)
  : kernel * scope :=
  fold_left (fun KL x => bind_name (fst KL) (snd KL) x) xs (K, L).

Definition define_function (K : kernel) (f : string) (ps : list string)
  (body : list stmt) : kernel :=
  {| globals := f :: globals K;
     functions := (f, (ps, body)) :: unbind_function f (functions K);
     star := star K;
     trace := trace K |}.

Definition log_call (K : kernel) (callee : string) : kernel :=
  {| globals := globals K;
     functions := functions K;
     star := star K;
     trace := callee :: trace K |}.

Definition import_star (K : kernel) : kernel :=
  {| globals := globals K;
     functions := functions K;
     star := true;
     trace := trace K |}.

Definition lookup_function (K : kernel) (x : string)
  : option (list string * list stmt) :=
  option_map snd (find (fun f => String.eqb x (fst f)) (functions K)).

(** The function of the notebook's own that [e] denotes, if any. *)
Definition own_function (K : kernel) (L : scope) (e : expr)
  : option (list string * list stmt) :=
  match e with
  | Name x => if is_local L x then None else lookup_function K x
  | _ => None
  end.

(** The dotted path of a callee, for the trace. *)
Fixpoint dotted (e : expr) : string :=
  match e with
  | Name x => x
  | Attribute v a => dotted v ++ "." ++ a
  | _ => "<expression>"
  end.

Definition names_of_targets (ts : list expr) : option (list string) :=
  fold_right (fun t acc =>
                match t, acc with
                | Name x, Some xs => Some (x :: xs)
                | _, _ => None
                end) (Some []) ts.

(** Names a statement binds in the scope it runs in. *)
Fixpoint binds (s : stmt) : list string :=
  match s with
  | Import _ a => [a]
  | ImportFrom _ names => map snd names
  | Assign (Name x) _ => [x]
  | Assign (TupleE ts) _ =>
      match names_of_targets ts with Some xs => xs | None => [] end
  | FunctionDef f _ _ => [f]
  | For x _ body => x :: flat_map binds body
  | _ => []
  end.

(** The scope a call starts in: the parameters are bound, the names the body
    assigns are local but not bound yet. *)
Definition call_scope (ps : list string) (body : list stmt) : scope :=
  Some {| bound_now := ps; assigned := flat_map binds body |}.

Definition lambda_scope (L : scope) (ps : list string) : scope :=
  match L with
  | Some l =>
      Some {| bound_now := (ps ++ bound_now l)%list; assigned := assigned l |}
  | None => Some {| bound_now := ps; assigned := [] |}
  end.

Fixpoint fold_res {A : Type} (step : kernel -> A -> res kernel) (K : kernel)
  (l : list A) : res kernel :=
  match l with
  | [] => Ok K
  | a :: l' => K1 <-- step K a ;; fold_res step K1 l'
  end.

(** What a statement leaves behind: the kernel, the scope, and whether a
    [return] was executed. *)
Definition after : Type := (kernel * scope * bool)%type.

(** Statements in sequence, stopping at a [return]. *)
Fixpoint run_block (exec1 : kernel -> scope -> stmt -> res after)
  (K : kernel) (L : scope) (ss : list stmt) : res after :=
  match ss with
  | [] => Ok (K, L, false)
  | s :: rest =>
      a <-- exec1 K L s ;;
      let '(K1, L1, returned) := a in
      if returned then Ok a else run_block exec1 K1 L1 rest
  end.

(** [count] rounds of a loop body, with the loop variable rebound before
    each round. *)
Fixpoint run_loop (body : kernel -> scope -> res after) (x : string)
  (count : nat) (K : kernel) (L : scope) : res after :=
  match count with
  | O => Ok (K, L, false)
  | S count' =>
      let (K0, L0) := bind_name K L x in
      a <-- body K0 L0 ;;
      let '(K1, L1, returned) := a in
      if returned then Ok a else run_loop body x count' K1 L1
  end.

(** An interpreter: how to evaluate an expression and how to execute a
    block.  Calls of the notebook's own functions nest, so the interpreter is
    built level by level: [step I] interprets one level of syntax and hands
    what is nested in it to [I]. *)
Record interp : Type := mk_interp {
  i_eval : kernel -> scope -> expr -> res kernel;
  i_block : kernel -> scope -> list stmt -> res after
}.

Definition no_interp : interp :=
  {| i_eval := fun _ _ _ => Fault OutOfFuel;
     i_block := fun _ _ _ => Fault OutOfFuel |}.

(** A call of one of the notebook's own functions: the body runs in a new
    local scope; what it binds there is dropped on return. *)
Definition call (I : interp) (K : kernel) (ps : list string)
  (body : list stmt) : res kernel :=
  a <-- i_block I K (call_scope ps body) body ;;
  Ok (fst (fst a)).

(** A library function calls the callables it is handed ([interact] and
    [minimize] both do): a lambda, or a function of the notebook's own. *)
Definition call_back (I : interp) (K : kernel) (L : scope) (a : expr)
  : res kernel :=
  match a with
  | Lambda ps body => i_eval I K (lambda_scope L ps) body
  | _ =>
      match own_function K L a with
      | Some (ps, body) => call I K ps body
      | None => Ok K
      end
  end.

(** A call evaluates the callee, then the positional and the keyword
    arguments, left to right, then runs the callee. *)
Definition eval_step (I : interp) (K : kernel) (L : scope) (e : expr)
  : res kernel :=
  match e with
  | Name x => lookup K L x
  | IntLit _ | FloatLit _ | StrLit _ | BoolLit _ => Ok K
  | Attribute v _ => i_eval I K L v
  | Subscript v i => K1 <-- i_eval I K L v ;; i_eval I K1 L i
  | BinOp a _ b => K1 <-- i_eval I K L a ;; i_eval I K1 L b
  | UnaryMinus a => i_eval I K L a
  | ListE es | TupleE es => fold_res (fun K0 e0 => i_eval I K0 L e0) K es
  | DictE kvs =>
      fold_res (fun K0 e0 => i_eval I K0 L e0) K
        (flat_map (fun kv => [fst kv; snd kv]) kvs)
  | Lambda _ _ => Ok K
  | Call f args kws =>
      let actuals := (args ++ map snd kws)%list in
      K1 <-- i_eval I K L f ;;
      K2 <-- fold_res (fun K0 e0 => i_eval I K0 L e0) K1 actuals ;;
      match own_function K2 L f with
      | Some (ps, body) => call I K2 ps body
      | None =>
          fold_res (fun K0 a => call_back I K0 L a)
            (log_call K2 (dotted f)) actuals
      end
  end.

Definition exec_step (I : interp) (K : kernel) (L : scope) (s : stmt)
  : res after :=
  match s with
  | Import _ a => Ok (bind_name K L a, false)
  | ImportFrom _ names => Ok (bind_names K L (map snd names), false)
  | ImportStar _ => Ok (import_star K, L, false)
  | Magic _ | Help _ => Ok (K, L, false)
  | Assign t v =>
      K1 <-- i_eval I K L v ;;
      match t with
      | Name x => Ok (bind_name K1 L x, false)
      | TupleE ts =>
          match names_of_targets ts with
          | Some xs => Ok (bind_names K1 L xs, false)
          | None => Fault Unsupported
          end
      | Attribute o _ => K2 <-- i_eval I K1 L o ;; Ok (K2, L, false)
      | _ => Fault Unsupported
      end
  | Expr v => K1 <-- i_eval I K L v ;; Ok (K1, L, false)
  | FunctionDef f ps body =>
      match L with
      | None => Ok (define_function K f ps body, L, false)
      | Some _ => Fault Unsupported
      end
  | Return v =>
      match L with
      | Some _ => K1 <-- i_eval I K L v ;; Ok (K1, L, true)
      | None => Fault Unsupported
      end
  | For x it body =>
      K1 <-- i_eval I K L it ;;
      match it with
      | Call (Name "range") [IntLit n] [] =>
          if mem "range" (globals K1) || is_local L "range"
          then Fault Unsupported
          else run_loop (fun K0 L0 => i_block I K0 L0 body) x (Z.to_nat n) K1 L
      | _ => Fault Unsupported
      end
  | If _ _ _ | Try _ _ | Raise _ | Assert _ => Fault Unsupported
  end.

Definition step (I : interp) : interp :=
  {| i_eval := eval_step I;
     i_block := run_block (exec_step I) |}.

(** The interpreter that follows calls and nested syntax [fuel] levels
    deep. *)
Fixpoint interp_at (fuel : nat) : interp :=
  match fuel with
  | O => no_interp
  | S fuel' => step (interp_at fuel')
  end.

(** [refines r r']: [r'] is what [r] is, unless [r] ran out of fuel. *)
Definition refines {A : Type} (r r' : res A) : Prop :=
  r = Fault OutOfFuel \/ r = r'.

Definition interp_le (I J : interp) : Prop :=
  (forall K L e, refines (i_eval I K L e) (i_eval J K L e))
  /\ (forall K L ss, refines (i_block I K L ss) (i_block J K L ss)).

(** How a run of the cells ends: all cells done, or stopped by a fault in the
    cell of the given index; the kernel is the one that cell started from. *)
Inductive run : Type :=
| Finished (K : kernel)
| Stopped (index : nat) (f : fault) (K : kernel).

Definition out_of_fuel (r : run) : bool :=
  match r with
  | Stopped _ OutOfFuel _ => true
  | _ => false
  end.

Definition run_cell (fuel : nat) (K : kernel) (c : cell) : res kernel :=
  match c with
  | Markdown _ => Ok K
  | Code src => a <-- i_block (interp_at fuel) K None src ;; Ok (fst (fst a))
  end.

Fixpoint run_cells (fuel : nat) (index : nat) (K : kernel) (cells : list cell)
  : run :=
  match cells with
  | [] => Finished K
  | c :: rest =>
      match run_cell fuel K c with
      | Ok K1 => run_cells fuel (S index) K1 rest
      | Fault f => Stopped index f K
      end
  end.

(** Depth that suffices for the four notebooks. *)
Definition fuel_enough : nat := 32.

(** Run all cells, top to bottom, in a fresh kernel. *)
Definition run_notebook (nb : notebook) : run :=
  run_cells fuel_enough 0 fresh_kernel nb.

(** Names that some statement of the notebook binds at module level. *)
Definition bound_anywhere (nb : notebook) : list string :=
  flat_map (fun c => match c with
                     | Markdown _ => []
                     | Code src => flat_map binds src
                     end) nb.

Definition count_calls (callee : string) (K : kernel) : nat :=
  List.length (filter (String.eqb callee) (trace K)).

(** ** The four notebooks

    Cells are numbered as in the notebook files, markdown cells included;
    each code cell is preceded by its source lines.
    The docstring of [neg_log_llh] is kept by its summary line; the prose of
    cell 59 of the MLE notebook, which announces the training loop, is kept
    in full. *)

Definition widgets_nb : notebook :=
[
  (*  0 *) Markdown "# Widgets";
  (*  1 *) Markdown "## Using widgets";
  (*  2 *) Markdown "To use the widget framework, you need to **impor";
  (*  3 *) Code
    (* | from ipywidgets import * *)
    [ImportStar "ipywidgets"];
  (*  4 *) Markdown "### repr";
  (*  5 *) Markdown "Widgets have their own display `repr` which allo";
  (*  6 *) Code
    (* | IntSlider() *)
    [Expr (Call (Name "IntSlider") [] [])];
  (*  7 *) Markdown "### display()";
  (*  8 *) Markdown "You can also explicitly display the widget using";
  (*  9 *) Code
    (* | from IPython.display import display *)
    (* | w = IntSlider() *)
    (* | display(w) *)
    [ImportFrom "IPython.display" [("display", "display")];
     Assign (Name "w") (Call (Name "IntSlider") [] []);
     Expr (Call (Name "display") [Name "w"] [])];
  (* 10 *) Markdown "### Multiple display() calls";
  (* 11 *) Markdown "If you display the same widget twice, the displa";
  (* 12 *) Code
    (* | display(w) *)
    [Expr (Call (Name "display") [Name "w"] [])];
  (* 13 *) Markdown "## Why does displaying the same widget twice wor";
  (* 14 *) Markdown "Widgets are **represented in the back-end by a s";
  (* 15 *) Markdown "### Closing widgets";
  (* 16 *) Markdown "You can close a widget by calling its `close()`";
  (* 17 *) Code
    (* | display(w) *)
    [Expr (Call (Name "display") [Name "w"] [])];
  (* 18 *) Code
    (* | w.close() *)
    [Expr (Call (Attribute (Name "w") "close") [] [])];
  (* 19 *) Markdown "## Widget properties";
  (* 20 *) Markdown "All of the IPython widgets **share a similar nam";
  (* 21 *) Code
    (* | w = IntSlider() *)
    (* | display(w) *)
    [Assign (Name "w") (Call (Name "IntSlider") [] []);
     Expr (Call (Name "display") [Name "w"] [])];
  (* 22 *) Code
    (* | w.value *)
    [Expr (Attribute (Name "w") "value")];
  (* 23 *) Markdown "Similarly, to set a widget's value, you can set";
  (* 24 *) Code
    (* | w.value = 100 *)
    [Assign (Attribute (Name "w") "value") (IntLit 100)];
  (* 25 *) Markdown "### Keys";
  (* 26 *) Markdown "In addition to `value`, most widgets share `keys";
  (* 27 *) Code
    (* | w.keys *)
    [Expr (Attribute (Name "w") "keys")];
  (* 28 *) Markdown "### Shorthand for setting the initial values of";
  (* 29 *) Markdown "While creating a widget, you can set some or all";
  (* 30 *) Code
    (* | Text(value='Hello World!', disabled=True) *)
    [Expr (Call (Name "Text") [] [("value", StrLit "Hello World!");
        ("disabled", BoolLit true)])];
  (* 31 *) Markdown "## Linking two similar widgets";
  (* 32 *) Markdown "If you need to display the same value two differ";
  (* 33 *) Code
    (* | import traitlets *)
    (* | a = FloatText() *)
    (* | b = FloatSlider() *)
    (* | mylink = traitlets.link((a, 'value'), (b, 'value')) *)
    (* | display(a) *)
    (* | display(b) *)
    [Import "traitlets" "traitlets";
     Assign (Name "a") (Call (Name "FloatText") [] []);
     Assign (Name "b") (Call (Name "FloatSlider") [] []);
     Assign (Name "mylink") (Call (Attribute (Name "traitlets") "link")
         [TupleE [Name "a"; StrLit "value"]; TupleE [Name "b";
         StrLit "value"]] []);
     Expr (Call (Name "display") [Name "a"] []);
     Expr (Call (Name "display") [Name "b"] [])];
  (* 34 *) Markdown "### Unlinking widgets";
  (* 35 *) Markdown "Unlinking the widgets is simple.  All you have t";
  (* 36 *) Code
    (* | mylink.unlink() *)
    [Expr (Call (Attribute (Name "mylink") "unlink") [] [])];
  (* 37 *) Markdown "# Widget List";
  (* 38 *) Markdown "## Complete list";
  (* 39 *) Markdown "For a complete list of the widgets available to";
  (* 40 *) Code
    (* | sorted(widgets.Widget.widget_types) *)
    [Expr (Call (Name "sorted") [Attribute (Attribute
        (Name "widgets") "Widget") "widget_types"] [])]
].

Definition modelling_overview_nb : notebook :=
[
  (*  0 *) Markdown "# Modelling Overview";
  (*  1 *) Markdown "**Learning Objectives:** Get a general conceptua";
  (*  2 *) Markdown "## Imports";
  (*  3 *) Code
    (* | import numpy as np *)
    (* | import tensorflow as tf *)
    (* | import tensorflow.contrib.distributions as dist *)
    [Import "numpy" "np";
     Import "tensorflow" "tf";
     Import "tensorflow.contrib.distributions" "dist"];
  (*  4 *) Code
    (* | import matplotlib.pyplot as plt *)
    (* | %matplotlib inline *)
    [Import "matplotlib.pyplot" "plt";
     Magic "%matplotlib inline"];
  (*  5 *) Markdown "## 1 Introduction";
  (*  6 *) Markdown "**Modelling**, or **statistical modelling** is a";
  (*  7 *) Markdown "## 2 Generative models";
  (*  8 *) Markdown "The idea of a **generative model** is that we ca";
  (*  9 *) Code
    (* | β = 20 # Parameter *)
    (* | data = np.random.exponential(β, 100) # Model *)
    (* | data # data *)
    [Assign (Name "β") (IntLit 20);
     Assign (Name "data") (Call (Attribute (Attribute
         (Name "np") "random") "exponential") [Name "β"; IntLit 100] []);
     Expr (Name "data")];
  (* 10 *) Markdown "We can then visualize this dataset:";
  (* 11 *) Code
    (* | plt.hist(data, bins=20); *)
    [Expr (Call (Attribute (Name "plt") "hist") [Name "data"]
        [("bins", IntLit 20)])];
  (* 12 *) Markdown "This example clarifies the choices that you have";
  (* 13 *) Markdown "## 3 Inference with models";
  (* 14 *) Markdown "**Inference** is a way of **learning from data**";
  (* 15 *) Code
    (* | observed_data = np.array( *)
    (* |     [  6.57946838,  16.66471659,  52.11420679,  25.64266511, *)
    (* |        10.90558697,  17.74796824,   8.0075313 ,   3.98989899, *)
    (* |        13.46723746,  24.90308858] *)
    (* | ) *)
    [Assign (Name "observed_data") (Call (Attribute (Name "np") "array")
        [ListE [FloatLit "6.57946838"; FloatLit "16.66471659";
        FloatLit "52.11420679"; FloatLit "25.64266511";
        FloatLit "10.90558697"; FloatLit "17.74796824"; FloatLit "8.0075313";
        FloatLit "3.98989899"; FloatLit "13.46723746";
        FloatLit "24.90308858"]] [])];
  (* 16 *) Markdown "We are again going to pick the exponential distr";
  (* 17 *) Code
    (* | beta_hat = observed_data.mean() *)
    [Assign (Name "beta_hat") (Call (Attribute (Name "observed_data") "mean")
        [] [])];
  (* 18 *) Markdown "Now that we have the";
  (* 19 *) Code
    (* | new_data = np.random.exponential(best_parameter, 20) *)
    (* | new_data *)
    [Assign (Name "new_data") (Call (Attribute (Attribute
        (Name "np") "random") "exponential") [Name "best_parameter";
        IntLit 20] []);
     Expr (Name "new_data")];
  (* 20 *) Markdown "The obvious question to ask it then this: how di"
].

Definition scipy_nb : notebook :=
[
  (*  0 *) Markdown "# SciPy: Numerical Algorithms for Python";
  (*  1 *) Markdown "**Learning Objective:** Learn how to find and us";
  (*  2 *) Code
    (* | %matplotlib inline *)
    (* | from matplotlib import pyplot as plt *)
    (* | import numpy as np *)
    [Magic "%matplotlib inline";
     ImportFrom "matplotlib" [("pyplot", "plt")];
     Import "numpy" "np"];
  (*  3 *) Markdown "## Overview";
  (*  4 *) Markdown "The SciPy framework builds on top NumPy and prov";
  (*  5 *) Code
    (* | import scipy as sp *)
    [Import "scipy" "sp"];
  (*  6 *) Markdown "## Approach";
  (*  7 *) Markdown "One of the most important skills in data science";
  (*  8 *) Markdown "## Resources";
  (*  9 *) Markdown "* [SciPy Website](http://www.scipy.org)"
].

Definition mle_nb : notebook :=
[
  (*  0 *) Markdown "# Maximum Likelihood Estimation Introduction";
  (*  1 *) Markdown "**Learning Objectives:** Understand maximum like";
  (*  2 *) Markdown "## Imports";
  (*  3 *) Code
    (* | import numpy as np *)
    (* | from matplotlib import pyplot as plt *)
    (* | %matplotlib inline *)
    [Import "numpy" "np";
     ImportFrom "matplotlib" [("pyplot", "plt")];
     Magic "%matplotlib inline"];
  (*  4 *) Markdown "## 1. Maximum likelihood";
  (*  5 *) Markdown "Previously, we have seen how to generate data fr";
  (*  6 *) Markdown "## 2. MLE for the normal distribution";
  (*  7 *) Markdown "Let's see how MLE works for the normal distribut";
  (*  8 *) Code
    (* | mu = 5.0 *)
    (* | sigma2 = 2.0 *)
    (* | data = np.random.normal(mu, np.sqrt(sigma2), 50) *)
    [Assign (Name "mu") (FloatLit "5.0");
     Assign (Name "sigma2") (FloatLit "2.0");
     Assign (Name "data") (Call (Attribute (Attribute
         (Name "np") "random") "normal") [Name "mu"; Call (Attribute
         (Name "np") "sqrt") [Name "sigma2"] []; IntLit 50] [])];
  (*  9 *) Markdown "Here is our distribution of generated data:";
  (* 10 *) Code
    (* | plt.hist(data, bins=20, normed=True) *)
    (* | plt.xlabel('x') *)
    (* | plt.ylabel('y') *)
    (* | plt.title('Generated Sample Distribution for the Normal Distribution'); *)
    [Expr (Call (Attribute (Name "plt") "hist") [Name "data"]
        [("bins", IntLit 20); ("normed", BoolLit true)]);
     Expr (Call (Attribute (Name "plt") "xlabel") [StrLit "x"] []);
     Expr (Call (Attribute (Name "plt") "ylabel") [StrLit "y"] []);
     Expr (Call (Attribute (Name "plt") "title")
         [StrLit "Generated Sample Distribution for the Normal Distribution"]
         [])];
  (* 11 *) Markdown "The negative log-likelihood depends on two thing";
  (* 12 *) Code
    (* | def neg_log_llh(theta, data): *)
    (* |     (docstring) *)
    (* |     mu = theta[0] *)
    (* |     sigma2 = theta[1] *)
    (* |     n = len(data) *)
    (* |     result = 0.5*n*np.log(2.0*np.pi*sigma2) +
        (1.0/(2.0*sigma2))*np.sum((data-mu)**2) *)
    (* |     return result *)
    [FunctionDef "neg_log_llh" ["theta"; "data"]
        [Expr (StrLit "Return the negative log-likelihood for the normal distribution.");
         Assign (Name "mu") (Subscript (Name "theta") (IntLit 0));
         Assign (Name "sigma2") (Subscript (Name "theta") (IntLit 1));
         Assign (Name "n") (Call (Name "len") [Name "data"] []);
         Assign (Name "result") (BinOp (BinOp (BinOp (FloatLit "0.5") Mult
             (Name "n")) Mult (Call (Attribute (Name "np") "log") [BinOp
             (BinOp (FloatLit "2.0") Mult (Attribute (Name "np") "pi")) Mult
             (Name "sigma2")] [])) Add (BinOp (BinOp (FloatLit "1.0") Div
             (BinOp (FloatLit "2.0") Mult (Name "sigma2"))) Mult (Call
             (Attribute (Name "np") "sum") [BinOp (BinOp (Name "data") Sub
             (Name "mu")) Pow (IntLit 2)] [])));
         Return (Name "result")]];
  (* 13 *) Code
    (* | neg_log_llh([1.0,1.0], data) *)
    [Expr (Call (Name "neg_log_llh") [ListE [FloatLit "1.0"; FloatLit "1.0"];
        Name "data"] [])];
  (* 14 *) Markdown "### 2.1 Minimization by hand";
  (* 15 *) Markdown "First, to help us get intuition about this minim";
  (* 16 *) Code
    (* | from ipywidgets import interact *)
    [ImportFrom "ipywidgets" [("interact", "interact")]];
  (* 17 *) Code
    (* | def print_log_llh(mu, sigma2): *)
    (* |     print(neg_log_llh((mu, sigma2), data)) *)
    [FunctionDef "print_log_llh" ["mu"; "sigma2"]
        [Expr (Call (Name "print") [Call (Name "neg_log_llh") [TupleE
            [Name "mu"; Name "sigma2"]; Name "data"] []] [])]];
  (* 18 *) Code
    (* | interact(print_log_llh, mu=(0.0, 10.0, 0.1), sigma2=(0.1, 10.0, 0.1)); *)
    [Expr (Call (Name "interact") [Name "print_log_llh"] [("mu", TupleE
        [FloatLit "0.0"; FloatLit "10.0"; FloatLit "0.1"]); ("sigma2", TupleE
        [FloatLit "0.1"; FloatLit "10.0"; FloatLit "0.1"])])];
  (* 19 *) Markdown "### 2.2 Minimization using `scipy.optimize`";
  (* 20 *) Markdown "The `scipy.optimize` package contains a number o";
  (* 21 *) Code
    (* | from scipy.optimize import minimize *)
    [ImportFrom "scipy.optimize" [("minimize", "minimize")]];
  (* 22 *) Markdown "The `minimize` function takes two arguments:";
  (* 23 *) Code
    (* | data *)
    [Expr (Name "data")];
  (* 24 *) Markdown "To get a function of just $\theta$, you can crea";
  (* 25 *) Code
    (* | fit = minimize(lambda theta: neg_log_llh(theta, data), # Just a function of theta *)
    (* |               
        [4.0,2.0] # Our initial guess for theta, remember it is a vector of parameters *)
    (* | ) *)
    (* | fit *)
    [Assign (Name "fit") (Call (Name "minimize") [Lambda ["theta"] (Call
        (Name "neg_log_llh") [Name "theta"; Name "data"] []); ListE
        [FloatLit "4.0"; FloatLit "2.0"]] []);
     Expr (Name "fit")];
  (* 26 *) Markdown "The estimated parameters are stored in the `x` a";
  (* 27 *) Code
    (* | print('mu:       ', fit.x[0]) *)
    (* | print('sigma**2: ', fit.x[1]) *)
    [Expr (Call (Name "print") [StrLit "mu:       "; Subscript (Attribute
        (Name "fit") "x") (IntLit 0)] []);
     Expr (Call (Name "print") [StrLit "sigma**2: "; Subscript (Attribute
         (Name "fit") "x") (IntLit 1)] [])];
  (* 28 *) Markdown "Here are the true values we are estimating:";
  (* 29 *) Code
    (* | print('mu:       ', mu) *)
    (* | print('sigma**2: ', sigma2) *)
    [Expr (Call (Name "print") [StrLit "mu:       "; Name "mu"] []);
     Expr (Call (Name "print") [StrLit "sigma**2: "; Name "sigma2"] [])];
  (* 30 *) Markdown "For the case of the normal distribution, the sam";
  (* 31 *) Code
    (* | print('sample mu:      ', data.mean()) *)
    (* | print('sample sigma**2:', data.var()) *)
    [Expr (Call (Name "print") [StrLit "sample mu:      "; Call (Attribute
        (Name "data") "mean") [] []] []);
     Expr (Call (Name "print") [StrLit "sample sigma**2:"; Call (Attribute
         (Name "data") "var") [] []] [])];
  (* 32 *) Markdown "Notice how the MLE values are almost identical.";
  (* 33 *) Markdown "### 2.3 Minimization using `scipy.stats`";
  (* 34 *) Markdown "The `scipy.stats` modules has a set of nice obje";
  (* 35 *) Code
    (* | from scipy.stats import norm *)
    [ImportFrom "scipy.stats" [("norm", "norm")]];
  (* 36 *) Markdown "If the parameters are known, you can create an o";
  (* 37 *) Code
    (* | N = norm(mu, np.sqrt(sigma2)) *)
    [Assign (Name "N") (Call (Name "norm") [Name "mu"; Call (Attribute
        (Name "np") "sqrt") [Name "sigma2"] []] [])];
  (* 38 *) Markdown "Then you can use various methods to query the di";
  (* 39 *) Code
    (* | N.pdf(1.0) *)
    [Expr (Call (Attribute (Name "N") "pdf") [FloatLit "1.0"] [])];
  (* 40 *) Markdown "And the natural log of the pdf (which is useful";
  (* 41 *) Code
    (* | N.logpdf(1.0) *)
    [Expr (Call (Attribute (Name "N") "logpdf") [FloatLit "1.0"] [])];
  (* 42 *) Markdown "Like `numpy.random.rand` we can also generate sa";
  (* 43 *) Code
    (* | N.rvs(10) *)
    [Expr (Call (Attribute (Name "N") "rvs") [IntLit 10] [])];
  (* 44 *) Markdown "Again, all of these usage case assume we have fi";
  (* 45 *) Code
    (* | mu_hat, sigma_hat = stats.norm.fit(data) *)
    [Assign (TupleE [Name "mu_hat"; Name "sigma_hat"]) (Call (Attribute
        (Attribute (Name "stats") "norm") "fit") [Name "data"] [])];
  (* 46 *) Markdown "It is important to note that the MLE here return";
  (* 47 *) Code
    (* | print('sample mu:      ', mu_hat) *)
    (* | print('sample sigma**2:', sigma_hat**2) *)
    [Expr (Call (Name "print") [StrLit "sample mu:      "; Name "mu_hat"] []);
     Expr (Call (Name "print") [StrLit "sample sigma**2:"; BinOp
         (Name "sigma_hat") Pow (IntLit 2)] [])];
  (* 48 *) Markdown "### 2.4 Minimization using TensorFlow";
  (* 49 *) Markdown "Finally, let's perform MLE using TensorFlow. Whi";
  (* 50 *) Code
    (* | import tensorflow as tf *)
    (* | from tensorflow.contrib import distributions as dist *)
    [Import "tensorflow" "tf";
     ImportFrom "tensorflow.contrib" [("distributions", "dist")]];
  (* 51 *) Markdown "Our first step is to create a model that represe";
  (* 52 *) Code
    (* | dist.Normal?? *)
    [Help (Attribute (Name "dist") "Normal")];
  (* 53 *) Code
    (* | mu = tf.Variable(1.0, dtype=tf.float64)     # Parameter *)
    (* | sigma = tf.Variable(1.0, dtype=tf.float64) # Parameter *)
    (* | x = tf.placeholder(dtype=tf.float64)       # Use a placeholder to represent observed data *)
    (* | model = dist.Normal(mu, sigma)       # Normal distribution *)
    (* | nll = tf.reduce_sum(-1.0*model.log_pdf(x))  # Performance metric = negative log-likelihood *)
    [Assign (Name "mu") (Call (Attribute (Name "tf") "Variable")
        [FloatLit "1.0"] [("dtype", Attribute (Name "tf") "float64")]);
     Assign (Name "sigma") (Call (Attribute (Name "tf") "Variable")
         [FloatLit "1.0"] [("dtype", Attribute (Name "tf") "float64")]);
     Assign (Name "x") (Call (Attribute (Name "tf") "placeholder") []
         [("dtype", Attribute (Name "tf") "float64")]);
     Assign (Name "model") (Call (Attribute (Name "dist") "Normal")
         [Name "mu"; Name "sigma"] []);
     Assign (Name "nll") (Call (Attribute (Name "tf") "reduce_sum") [BinOp
         (UnaryMinus (FloatLit "1.0")) Mult (Call (Attribute
         (Name "model") "log_pdf") [Name "x"] [])] [])];
  (* 54 *) Markdown "Now do the standard initialization of the Tensor";
  (* 55 *) Code
    (* | sess = tf.Session() *)
    (* | init = tf.global_variables_initializer() *)
    (* | sess.run(init) *)
    [Assign (Name "sess") (Call (Attribute (Name "tf") "Session") [] []);
     Assign (Name "init") (Call (Attribute
         (Name "tf") "global_variables_initializer") [] []);
     Expr (Call (Attribute (Name "sess") "run") [Name "init"] [])];
  (* 56 *) Markdown "Now we need to train our model by minimizing the";
  (* 57 *) Code
    (* | optimizer = tf.train.GradientDescentOptimizer(0.01) *)
    [Assign (Name "optimizer") (Call (Attribute (Attribute
        (Name "tf") "train") "GradientDescentOptimizer") [FloatLit "0.01"]
        [])];
  (* 58 *) Code
    (* | train = optimizer.minimize(nll) *)
    [Assign (Name "train") (Call (Attribute (Name "optimizer") "minimize")
        [Name "nll"] [])];
  (* 59 *) Markdown
      ("Lastly, we will train our model. Conceptually, the gradient "
       ++ "descent algorithm computes the gradient of the performance "
       ++ "metric with respect to the parameters. It then takes a step in "
       ++ "the most downhill direction. The optimization API for the "
       ++ "`GradientDescentOptimizer` reflects this step-wise approach so "
       ++ "we have to take 100 steps explicitly:");
  (* 60 *) Code
    (* | for i in range(1000): *)
    (* |     sess.run(train, {x: data}) *)
    [For "i" (Call (Name "range") [IntLit 1000] []) [Expr (Call (Attribute
        (Name "sess") "run") [Name "train"; DictE [(Name "x", Name "data")]]
        [])]];
  (* 61 *) Markdown "After we have trained the model, we can run the";
  (* 62 *) Code
    (* | sess.run([mu, sigma]) *)
    [Expr (Call (Attribute (Name "sess") "run") [ListE [Name "mu";
        Name "sigma"]] [])];
  (* 63 *) Markdown "We can also look at the value of our performance";
  (* 64 *) Code
    (* | sess.run(nll, {x: data}) *)
    [Expr (Call (Attribute (Name "sess") "run") [Name "nll"; DictE
        [(Name "x", Name "data")]] [])];
  (* 65 *) Markdown "The power here is that we have a single, uniform"
].

Definition repository : list notebook :=
  [widgets_nb; modelling_overview_nb; scipy_nb; mle_nb].

(** The TensorFlow section (cells 48 to 59, up to the training loop) and the
    training cell itself, cell 60. *)
Definition tf_setup_cells : list cell := firstn 12 (skipn 48 mle_nb).

Definition training_cell : cell := nth 60 mle_nb (Markdown "").

Definition kernel_of (r : run) : kernel :=
  match r with
  | Finished K | Stopped _ _ K => K
  end.

(** The kernel after the cells that precede the failing cell 45, the kernel
    after the TensorFlow section has then been set up, and the kernel after
    the training cell. *)
Definition kernel_before_fit : kernel :=
  kernel_of (run_cells fuel_enough 0 fresh_kernel (firstn 45 mle_nb)).

Definition kernel_before_training : kernel :=
  kernel_of (run_cells fuel_enough 48 kernel_before_fit tf_setup_cells).

Definition kernel_after_training : kernel :=
  match run_cell fuel_enough kernel_before_training training_cell with
  | Ok K => K
  | Fault _ => kernel_before_training
  end.

(** [needle] occurs in [hay]. *)
Fixpoint contains (needle hay : string) : bool :=
  String.prefix needle hay
  || match hay with
     | EmptyString => false
     | String _ rest => contains needle rest
     end.

(** The prose of a cell. *)
Definition prose_of (c : cell) : string :=
  match c with
  | Markdown text => text
  | Code _ => ""
  end.

(** The number of steps the prose announces for the training loop, markdown
    cell 59 of the MLE notebook. *)
Definition stated_steps : nat := 100.

(** ** The notebook's own functions, and stepping through a notebook *)

(** Parameters and body of the function that a cell of the notebook
    defines. *)
Definition definition_in (nb : notebook) (index : nat)
  : list string * list stmt :=
  match nth_error nb index with
  | Some (Code [FunctionDef _ ps body]) => (ps, body)
  | _ => ([], [])
  end.

Definition neg_log_llh_def : list string * list stmt :=
  definition_in mle_nb 12.

Definition print_log_llh_def : list string * list stmt :=
  definition_in mle_nb 17.

(** The kernel after the library calls [callees], oldest first. *)
Definition logged (K : kernel) (callees : list string) : kernel :=
  fold_left log_call callees K.

(** [f] is bound at module level to the function [d] of the notebook. *)
Definition defines (K : kernel) (f : string) (d : list string * list stmt)
  : Prop :=
  mem f (globals K) = true /\ lookup_function K f = Some d.

(** The notebook has not defined a function of its own under the name of
    the builtin [f]. *)
Definition keeps_builtin (K : kernel) (f : string) : Prop :=
  lookup_function K f = None.

(** [x] resolves at module level: bound there, a builtin, or possibly
    brought in by a star import. *)
Definition resolves (K : kernel) (x : string) : bool :=
  mem x (globals K) || mem x builtins || star K.

(** [x] is bound in the local scope. *)
Definition is_bound (L : scope) (x : string) : bool :=
  match L with
  | Some l => mem x (bound_now l)
  | None => false
  end.

(** A reader who steps through a notebook runs the next cell also after a
    cell has raised.  A cell stops at its first statement that raises; what
    the statements before it bound stays bound. *)
Fixpoint step_through_cell (fuel : nat) (K : kernel) (src : list stmt)
  : kernel * option fault :=
  match src with
  | [] => (K, None)
  | s :: rest =>
      match run_cell fuel K (Code [s]) with
      | Ok K1 => step_through_cell fuel K1 rest
      | Fault f => (K, Some f)
      end
  end.

(** The cells that raise, with what they raise, and the kernel at the
    end. *)
Fixpoint step_through (fuel : nat) (index : nat) (K : kernel)
  (cells : list cell) : list (nat * fault) * kernel :=
  match cells with
  | [] => ([], K)
  | Markdown _ :: rest => step_through fuel (S index) K rest
  | Code src :: rest =>
      let (K1, raised) := step_through_cell fuel K src in
      let (faults, K2) := step_through fuel (S index) K1 rest in
      (match raised with
       | Some f => (index, f) :: faults
       | None => faults
       end, K2)
  end.

Definition is_out_of_fuel (f : fault) : bool :=
  match f with
  | OutOfFuel => true
  | _ => false
  end.

Definition ran_out (faults : list (nat * fault)) : bool :=
  existsb (fun p => is_out_of_fuel (snd p)) faults.

Local Close Scope string_scope.
Local Open Scope R_scope.

(** * The negative log-likelihood *)

Lemma two_pi_sigma2_pos (sigma2 : R) : 0 < sigma2 -> 0 < 2 * PI * sigma2.
Proof.
  intro H. pose proof PI_RGT_0 as HP.
  apply Rmult_lt_0_compat; [lra | exact H].
Qed.

Lemma np_sum_app (a b : list R) : np_sum (a ++ b) = np_sum a + np_sum b.
Proof.
  induction a as [|x a IH]; simpl.
  - ring.
  - rewrite IH. ring.
Qed.

Lemma np_sum_cons (x : R) (a : list R) : np_sum (x :: a) = x + np_sum a.
Proof. reflexivity. Qed.

Lemma sq_sub_map (data : list R) (mu : R) :
  ndarray_sq (ndarray_sub data mu) = map (fun x => (x - mu) ^ 2) data.
Proof.
  unfold ndarray_sq, ndarray_sub. rewrite map_map. reflexivity.
Qed.

(** With a positive variance the function returns the closed form, after one
    logarithm and one division, both inside their domains. *)
Lemma neg_log_llh_pos (k : scalar) (mu sigma2 : R) (rest data : list R) :
  0 < sigma2 ->
  neg_log_llh k (mu :: sigma2 :: rest) data
  = ([LogOf (2.0 * PI * sigma2); Divide 1.0 (2.0 * sigma2)],
     inr (Fin (nll_closed_form mu sigma2 data))).
Proof.
  intro Hs.
  pose proof (two_pi_sigma2_pos sigma2 Hs) as Hp.
  unfold neg_log_llh, getitem, np_log, truediv, bind, ret; simpl.
  replace (2.0 * PI * sigma2) with (2 * PI * sigma2) by lra.
  destruct (Rlt_dec 0 (2 * PI * sigma2)) as [_|n]; [|contradiction].
  destruct (Req_dec_T (2.0 * sigma2) 0) as [e|_]; [lra|].
  simpl. do 3 f_equal.
  unfold nll_closed_form, len. rewrite sq_sub_map.
  replace (2.0 * sigma2) with (2 * sigma2) by lra.
  replace 1.0 with 1 by lra.
  lra.
Qed.

Lemma ln_inv_sqrt (a : R) : 0 < a -> ln (1 / sqrt a) = - (ln a / 2).
Proof.
  intro Ha.
  pose proof (sqrt_lt_R0 a Ha) as Hs.
  assert (H2 : ln a = ln (sqrt a) + ln (sqrt a)).
  { rewrite <- ln_mult by assumption. rewrite sqrt_sqrt by lra. reflexivity. }
  replace (1 / sqrt a) with (/ sqrt a) by (field; lra).
  rewrite ln_Rinv by assumption. lra.
Qed.

(** The log-density of one sample, as in the second displayed formula of
    section 2. *)
Lemma ln_normal_pdf (mu sigma2 x : R) :
  0 < sigma2 ->
  ln (normal_pdf mu sigma2 x)
  = - (ln (2 * PI * sigma2) / 2) - (x - mu) ^ 2 / (2 * sigma2).
Proof.
  intro Hs. pose proof (two_pi_sigma2_pos sigma2 Hs) as Hp.
  unfold normal_pdf.
  rewrite ln_mult.
  - rewrite ln_inv_sqrt by assumption. rewrite ln_exp. field. lra.
  - apply Rdiv_lt_0_compat; [lra | now apply sqrt_lt_R0].
  - apply exp_pos.
Qed.

Lemma neg_sum_log_pdf_closed (mu sigma2 : R) (data : list R) :
  0 < sigma2 ->
  neg_sum_log_pdf mu sigma2 data = nll_closed_form mu sigma2 data.
Proof.
  intro Hs. unfold neg_sum_log_pdf, nll_closed_form.
  induction data as [|x data IH].
  - simpl. lra.
  - change (length (x :: data)) with (S (length data)). rewrite S_INR.
    cbn [map]. rewrite !np_sum_cons. rewrite ln_normal_pdf by assumption.
    assert (E : - np_sum (map (fun x0 => ln (normal_pdf mu sigma2 x0)) data)
                = INR (length data) / 2 * ln (2 * PI * sigma2)
                  + 1 / (2 * sigma2)
                    * np_sum (map (fun x0 => (x0 - mu) ^ 2) data)) by exact IH.
    set (L := ln (2 * PI * sigma2)) in *.
    set (S1 := np_sum (map (fun x0 => ln (normal_pdf mu sigma2 x0)) data)) in *.
    set (S2 := np_sum (map (fun x0 => (x0 - mu) ^ 2) data)) in *.
    replace (- (- (L / 2) - (x - mu) ^ 2 / (2 * sigma2) + S1))
      with (L / 2 + (x - mu) ^ 2 / (2 * sigma2) + - S1) by ring.
    rewrite E. field. lra.
Qed.

(** C1.  For every real mu, every sigma2 > 0 and every finite array of real
    data points, [neg_log_llh([mu, sigma2], data)] returns the negative sum
    over the data of the natural log of the normal density, which is the
    closed form [(n/2) ln(2 pi sigma2) + 1/(2 sigma2) sum_i (x_i - mu)^2]. *)
Theorem neg_log_llh_is_neg_sum_log_pdf (k : scalar) (mu sigma2 : R) (data : list R) :
  0 < sigma2 ->
  outcome (neg_log_llh k [mu; sigma2] data)
  = inr (Fin (neg_sum_log_pdf mu sigma2 data))
  /\ neg_sum_log_pdf mu sigma2 data
     = INR (length data) / 2 * ln (2 * PI * sigma2)
       + 1 / (2 * sigma2) * np_sum (map (fun x => (x - mu) ^ 2) data).
Proof.
  intro Hs. split.
  - rewrite neg_log_llh_pos by assumption. unfold outcome; simpl.
    now rewrite neg_sum_log_pdf_closed.
  - now apply neg_sum_log_pdf_closed.
Qed.

Lemma neg_log_llh_is_neg_sum_log_pdf_witness :
  outcome (neg_log_llh PyFloat [1; 2] [3; 5])
  = inr (Fin (neg_sum_log_pdf 1 2 [3; 5]))
  /\ neg_sum_log_pdf 1 2 [3; 5]
     = INR (length [3; 5]) / 2 * ln (2 * PI * 2)
       + 1 / (2 * 2) * np_sum (map (fun x => (x - 1) ^ 2) [3; 5]).
Proof.
  apply (neg_log_llh_is_neg_sum_log_pdf PyFloat 1 2 [3; 5]). lra.
Defined.

Lemma nll_closed_form_app (mu sigma2 : R) (d1 d2 : list R) :
  nll_closed_form mu sigma2 (d1 ++ d2)
  = nll_closed_form mu sigma2 d1 + nll_closed_form mu sigma2 d2.
Proof.
  unfold nll_closed_form.
  rewrite length_app, plus_INR, map_app, np_sum_app. unfold Rdiv. ring.
Qed.

Lemma nll_closed_form_nil (mu sigma2 : R) : nll_closed_form mu sigma2 [] = 0.
Proof. unfold nll_closed_form. simpl. unfold Rdiv. ring. Qed.

(** C7.  For every theta with theta[1] > 0 and all finite real arrays d1 and
    d2, the value on the concatenation is the sum of the values on d1 and on
    d2, and the value on the empty array is 0. *)
Theorem neg_log_llh_additive (k : scalar) (mu sigma2 : R) (rest d1 d2 : list R) :
  0 < sigma2 ->
  exists r1 r2 : R,
    outcome (neg_log_llh k (mu :: sigma2 :: rest) d1) = inr (Fin r1)
    /\ outcome (neg_log_llh k (mu :: sigma2 :: rest) d2) = inr (Fin r2)
    /\ outcome (neg_log_llh k (mu :: sigma2 :: rest) (d1 ++ d2))
       = inr (Fin (r1 + r2))
    /\ outcome (neg_log_llh k (mu :: sigma2 :: rest) []) = inr (Fin 0).
Proof.
  intro Hs.
  exists (nll_closed_form mu sigma2 d1), (nll_closed_form mu sigma2 d2).
  rewrite !neg_log_llh_pos by assumption. unfold outcome; simpl.
  rewrite nll_closed_form_app, nll_closed_form_nil. auto.
Qed.

Lemma neg_log_llh_additive_witness :
  exists r1 r2 : R,
    outcome (neg_log_llh NpFloat64 [4; 2] [1; 2]) = inr (Fin r1)
    /\ outcome (neg_log_llh NpFloat64 [4; 2] [3]) = inr (Fin r2)
    /\ outcome (neg_log_llh NpFloat64 [4; 2] ([1; 2] ++ [3]))
       = inr (Fin (r1 + r2))
    /\ outcome (neg_log_llh NpFloat64 [4; 2] []) = inr (Fin 0).
Proof.
  apply (neg_log_llh_additive NpFloat64 4 2 [] [1; 2] [3]). lra.
Defined.

Lemma np_sum_sq_nonneg (data : list R) (mu : R) :
  0 <= np_sum (ndarray_sq (ndarray_sub data mu)).
Proof.
  rewrite sq_sub_map.
  induction data as [|x data IH]; cbn [map].
  - simpl. lra.
  - rewrite np_sum_cons. pose proof (pow2_ge_0 (x - mu)). lra.
Qed.

(** ** The branches of [neg_log_llh] in float64 arithmetic *)

Section Float64.

Local Open Scope Z_scope.

(** *** Rounding never changes the sign and, above the smallest subnormal,
    never reaches zero *)

Lemma digits2_bounds (p : positive) :
  2 ^ (Zpos (digits2_pos p) - 1) <= Zpos p < 2 ^ Zpos (digits2_pos p).
Proof.
  induction p as [p IH | p IH |]; cbn [digits2_pos].
  - rewrite Pos2Z.inj_succ.
    replace (Z.succ (Zpos (digits2_pos p)) - 1)
      with (Z.succ (Zpos (digits2_pos p) - 1)) by lia.
    rewrite !Z.pow_succ_r by lia. lia.
  - rewrite Pos2Z.inj_succ.
    replace (Z.succ (Zpos (digits2_pos p)) - 1)
      with (Z.succ (Zpos (digits2_pos p) - 1)) by lia.
    rewrite !Z.pow_succ_r by lia. lia.
  - simpl. lia.
Qed.

(** A number is at least [2^k] only if it has more than [k] digits. *)
Lemma digits2_lower (p : positive) (k : Z) :
  0 <= k -> 2 ^ k <= Zpos p -> k < Zpos (digits2_pos p).
Proof.
  intros Hk Hp. destruct (digits2_bounds p) as [_ Hu].
  destruct (Z_lt_le_dec k (Zpos (digits2_pos p))) as [H | H]; [exact H|].
  exfalso. assert (2 ^ Zpos (digits2_pos p) <= 2 ^ k)
    by (apply Z.pow_le_mono_r; lia).
  lia.
Qed.

Lemma iter_pos_nat {A : Type} (f : A -> A) (p : positive) (x : A) :
  iter_pos f p x = Nat.iter (Pos.to_nat p) f x.
Proof.
  revert x. induction p as [p IH | p IH |]; intro x; cbn [iter_pos].
  - rewrite !IH, Pos2Nat.inj_xI.
    replace (S (2 * Pos.to_nat p)) with (Pos.to_nat p + S (Pos.to_nat p))%nat
      by lia.
    rewrite Nat.iter_add, Nat.iter_succ_r. reflexivity.
  - rewrite !IH, Pos2Nat.inj_xO.
    replace (2 * Pos.to_nat p)%nat with (Pos.to_nat p + Pos.to_nat p)%nat
      by lia.
    rewrite Nat.iter_add. reflexivity.
  - reflexivity.
Qed.

Lemma shr_1_mantissa (mrs : shr_record) :
  0 <= shr_m mrs -> shr_m (shr_1 mrs) = shr_m mrs / 2.
Proof.
  destruct mrs as [m r s]. cbn [shr_m]. intro Hm.
  destruct m as [|p|p]; [reflexivity | | lia].
  destruct p as [p | p |]; cbn [shr_1 shr_m].
  - rewrite Pos2Z.inj_xI.
    replace (2 * Zpos p + 1) with (1 + Zpos p * 2) by lia.
    rewrite Z.div_add by lia. reflexivity.
  - rewrite Pos2Z.inj_xO.
    replace (2 * Zpos p) with (Zpos p * 2) by lia.
    now rewrite Z.div_mul by lia.
  - reflexivity.
Qed.

Lemma shr_iter_mantissa (n : nat) (mrs : shr_record) :
  0 <= shr_m mrs ->
  shr_m (Nat.iter n shr_1 mrs) = shr_m mrs / 2 ^ Z.of_nat n.
Proof.
  intro Hm. induction n as [|n IH].
  - simpl. now rewrite Z.div_1_r.
  - rewrite Nat.iter_succ, shr_1_mantissa.
    + rewrite IH, Nat2Z.inj_succ, Z.pow_succ_r by lia.
      rewrite Z.div_div by lia. f_equal. lia.
    + rewrite IH. apply Z.div_pos; [exact Hm | lia].
Qed.

(** Shifting right by [n]: the mantissa is divided by [2^n]. *)
Lemma shr_mantissa (mrs : shr_record) (e n : Z) :
  0 <= shr_m mrs ->
  shr_m (fst (shr mrs e n)) = shr_m mrs / 2 ^ Z.max 0 n
  /\ snd (shr mrs e n) = e + Z.max 0 n.
Proof.
  intro Hm. destruct n as [|p|p]; cbn [shr fst snd].
  - simpl. rewrite Z.div_1_r. split; [reflexivity | lia].
  - rewrite iter_pos_nat, shr_iter_mantissa by exact Hm.
    rewrite positive_nat_Z. split; [f_equal; f_equal; lia | lia].
  - simpl. rewrite Z.div_1_r. split; [reflexivity | lia].
Qed.

Lemma shr_record_of_loc_mantissa (m : Z) (l : location) :
  shr_m (shr_record_of_loc m l) = m.
Proof. destruct l as [|[| |]]; reflexivity. Qed.

Lemma round_nearest_even_bounds (m : Z) (l : location) :
  m <= round_nearest_even m l <= m + 1.
Proof.
  destruct l as [|[| |]]; cbn [round_nearest_even]; try lia.
  destruct (Z.even m); lia.
Qed.

(** One rounding shift, on a positive mantissa [m] with [d] digits.  The
    result is not negative; and if [d + e] is above the exponent of the
    smallest subnormal, it is positive and still has its digits above that
    exponent. *)
Lemma shr_fexp_positive (m : positive) (e : Z) (l : location) :
  let r := shr_fexp prec64 emax64 (Zpos m) e l in
  0 <= shr_m (fst r)
  /\ (-1074 < Zpos (digits2_pos m) + e ->
      exists m' : positive,
        shr_m (fst r) = Zpos m'
        /\ -1074 < Zpos (digits2_pos m') + snd r).
Proof.
  intro r. subst r. unfold shr_fexp.
  set (d := Zpos (digits2_pos m)).
  cbn [Zdigits2]. fold d.
  set (n := fexp prec64 emax64 (d + e) - e).
  assert (Hn : n = Z.max (d + e - 53) (-1074) - e) by reflexivity.
  destruct (shr_mantissa (shr_record_of_loc (Zpos m) l) e n) as [Hm He].
  { rewrite shr_record_of_loc_mantissa. lia. }
  rewrite shr_record_of_loc_mantissa in Hm.
  rewrite Hm, He.
  assert (Hp : 0 < 2 ^ Z.max 0 n) by (apply Z.pow_pos_nonneg; lia).
  split.
  - apply Z.div_pos; lia.
  - intro Hd.
    destruct (digits2_bounds m) as [Hlo _]. fold d in Hlo.
    assert (Hd1 : 1 <= d) by (unfold d; lia).
    assert (Hle : Z.max 0 n <= d - 1) by lia.
    assert (Hq : 2 ^ (d - 1 - Z.max 0 n) <= Zpos m / 2 ^ Z.max 0 n).
    { apply Z.div_le_lower_bound; [exact Hp|].
      rewrite <- Z.pow_add_r by lia.
      replace (Z.max 0 n + (d - 1 - Z.max 0 n)) with (d - 1) by lia.
      exact Hlo. }
    assert (Hpos : 0 < 2 ^ (d - 1 - Z.max 0 n))
      by (apply Z.pow_pos_nonneg; lia).
    destruct (Zpos m / 2 ^ Z.max 0 n) as [|m'|m'] eqn:E; try lia.
    exists m'. split; [reflexivity|].
    assert (d - 1 - Z.max 0 n < Zpos (digits2_pos m'))
      by (apply digits2_lower; [lia | exact Hq]).
    lia.
Qed.

(** Rounding a positive mantissa gives a float with the sign asked for,
    never [nan]; and never zero when the number is above the smallest
    subnormal's exponent. *)
Lemma binary_round_aux_sign (sx : bool) (m : positive) (e : Z)
  (l : location) :
  let r := binary_round_aux prec64 emax64 sx (Zpos m) e l in
  (r = S754_zero sx \/ r = S754_infinity sx
   \/ exists m' e', r = S754_finite sx m' e')
  /\ (-1074 < Zpos (digits2_pos m) + e -> r <> S754_zero sx).
Proof.
  intro r. subst r. unfold binary_round_aux.
  destruct (shr_fexp_positive m e l) as [H0 Hd].
  destruct (shr_fexp prec64 emax64 (Zpos m) e l) as [mrs' e'] eqn:E1.
  cbn [fst snd] in H0, Hd.
  pose proof (round_nearest_even_bounds (shr_m mrs')
                (loc_of_shr_record mrs')) as Hr.
  destruct (round_nearest_even (shr_m mrs') (loc_of_shr_record mrs'))
    as [|m1|m1] eqn:Em1; [| |lia].
  - (* rounded to zero *)
    assert (Hz : shr_fexp prec64 emax64 0 e' loc_Exact
                 = ({| shr_m := 0; shr_r := false; shr_s := false |},
                    snd (shr_fexp prec64 emax64 0 e' loc_Exact))).
    { unfold shr_fexp. cbn [Zdigits2 shr_record_of_loc].
      destruct (fexp prec64 emax64 (0 + e') - e') as [|p|p];
        cbn [shr fst snd]; try reflexivity.
      f_equal. rewrite iter_pos_nat.
      induction (Pos.to_nat p) as [|k IH]; [reflexivity|].
      rewrite Nat.iter_succ, IH. reflexivity. }
    rewrite Hz. cbn [shr_m]. split; [now left|].
    intro Hgt. destruct (Hd Hgt) as (m' & Hm' & _). lia.
  - destruct (shr_fexp_positive m1 e' loc_Exact) as [H0' Hd'].
    destruct (shr_fexp prec64 emax64 (Zpos m1) e' loc_Exact)
      as [mrs'' e''] eqn:E2.
    cbn [fst snd] in H0', Hd'.
    split.
    + destruct (shr_m mrs'') as [|m2|m2]; [now left | | lia].
      right. destruct (e'' <=? emax64 - prec64); [right | now left].
      now exists m2, e''.
    + intro Hgt. destruct (Hd Hgt) as (m' & Hm' & Hgt').
      assert (Hdig : Zpos (digits2_pos m') <= Zpos (digits2_pos m1)).
      { destruct (digits2_bounds m') as [Hlo _].
        assert (Zpos (digits2_pos m') - 1 < Zpos (digits2_pos m1)).
        { apply digits2_lower; [lia|]. lia. }
        lia. }
      destruct Hd' as (m2 & Hm2 & _); [lia|].
      rewrite Hm2. destruct (e'' <=? emax64 - prec64); discriminate.
Qed.

(** Multiplying by a normal constant of exponent above [-53], as [2.0] and
    [2.0*np.pi] are, keeps a non-zero finite float away from zero and keeps
    its sign. *)
Lemma f64_mul_constant (mc : positive) (ec : Z) (b : bool) (m : positive)
  (e : Z) :
  Zpos (digits2_pos mc) = 53 -> -53 < ec ->
  f64_valid (S754_finite b m e) = true ->
  let r := f64_mul (S754_finite false mc ec) (S754_finite b m e) in
  r = S754_infinity b \/ exists m' e', r = S754_finite b m' e'.
Proof.
  intros Hc Hec Hv r. subst r.
  unfold f64_mul, SFmul. cbn [xorb].
  destruct (binary_round_aux_sign b (mc * m) (ec + e) loc_Exact)
    as [Hcases Hnz].
  assert (He : -1074 <= e).
  { unfold f64_valid, valid_binary, bounded, canonical_mantissa in Hv.
    apply andb_true_iff in Hv as [Hv _]. apply Z.eqb_eq in Hv.
    unfold fexp, emin, prec64, emax64 in Hv. lia. }
  assert (Hgt : -1074 < Zpos (digits2_pos (mc * m)) + (ec + e)).
  { destruct (digits2_bounds mc) as [Hlc _]. rewrite Hc in Hlc.
    assert (H52 : 2 ^ 52 <= Zpos (mc * m)).
    { rewrite Pos2Z.inj_mul. change (53 - 1) with 52 in Hlc.
      assert (1 <= Zpos m) by lia. nia. }
    pose proof (digits2_lower (mc * m) 52 ltac:(lia) H52). lia. }
  specialize (Hnz Hgt).
  destruct Hcases as [H | [H | H]]; [contradiction | now left | now right].
Qed.

Lemma f64_two_pi :
  f64_mul f64_two f64_pi = S754_finite false 7074237752028440 (-50).
Proof. vm_compute. reflexivity. Qed.

(** The two expressions that decide the branch keep the sign of the
    variance parameter and are zero only when it is. *)
Lemma log_argument64_sign (s : f64) :
  f64_valid s = true ->
  (f64_positive s = true -> f64_positive (log_argument64 s) = true)
  /\ (f64_negative s = true -> f64_negative (log_argument64 s) = true)
  /\ (f64_is_zero s = true -> f64_is_zero (log_argument64 s) = true).
Proof.
  intro Hv. unfold log_argument64. rewrite f64_two_pi.
  destruct s as [b | b | | b m e]; cbn [f64_positive f64_negative f64_is_zero];
    try (repeat split; intro H; try discriminate H; destruct b; now try discriminate H).
  destruct (f64_mul_constant 7074237752028440 (-50) b m e) as [H | (m' & e' & H)];
    [reflexivity | lia | exact Hv | |]; rewrite H;
    repeat split; intro Hs; destruct b; try discriminate Hs; reflexivity.
Qed.

Lemma divisor64_sign (s : f64) :
  f64_valid s = true ->
  (f64_positive s = true -> f64_positive (divisor64 s) = true)
  /\ (f64_negative s = true -> f64_negative (divisor64 s) = true)
  /\ (f64_is_zero s = true -> f64_is_zero (divisor64 s) = true).
Proof.
  intro Hv. unfold divisor64, f64_two.
  destruct s as [b | b | | b m e]; cbn [f64_positive f64_negative f64_is_zero];
    try (repeat split; intro H; try discriminate H; destruct b; now try discriminate H).
  destruct (f64_mul_constant 4503599627370496 (-51) b m e) as [H | (m' & e' & H)];
    [reflexivity | lia | exact Hv | |]; rewrite H;
    repeat split; intro Hs; destruct b; try discriminate Hs; reflexivity.
Qed.

Lemma f64_mul_nan_r (x : f64) : f64_mul x S754_nan = S754_nan.
Proof. destruct x; reflexivity. Qed.

Lemma f64_add_nan_l (y : f64) : f64_add S754_nan y = S754_nan.
Proof. reflexivity. Qed.

(** An infinity times anything is an infinity or [nan]. *)
Lemma f64_mul_infinity_l (b : bool) (y : f64) :
  f64_is_finite (f64_mul (S754_infinity b) y) = false.
Proof. destruct y; reflexivity. Qed.

Lemma f64_mul_infinity_r (x : f64) (b : bool) :
  f64_is_finite (f64_mul x (S754_infinity b)) = false.
Proof. destruct x; reflexivity. Qed.

Lemma f64_add_not_finite (x y : f64) :
  f64_is_finite x = false -> f64_is_finite y = false ->
  f64_is_finite (f64_add x y) = false.
Proof.
  destruct x as [| bx | |]; try discriminate;
    destruct y as [| [|] | |]; try discriminate; intros _ _;
    try reflexivity; destruct bx; reflexivity.
Qed.

(** Half of a float that is not negative is not negative, and not [nan]. *)
Lemma f64_half_of_nonnegative (lg : f64) :
  f64_is_finite lg = true -> f64_signbit lg = false ->
  let r := f64_mul f64_half lg in
  r = S754_zero false \/ r = S754_infinity false
  \/ exists m e, r = S754_finite false m e.
Proof.
  intros Hf Hs r. subst r.
  destruct lg as [b | b | | b m e]; try discriminate Hf;
    cbn [f64_signbit] in Hs; subst b.
  - now left.
  - unfold f64_mul, f64_half, SFmul. cbn [xorb].
    apply (binary_round_aux_sign false (4503599627370496 * m) (-53 + e)
             loc_Exact).
Qed.

(** The run that contradicts the claim as stated, for whatever finite
    value [np.log] returned. *)
Lemma neg_log_llh64_overflow (k : scalar) (lg : f64) :
  np_log_may_return (log_argument64 f64_one) lg = true ->
  neg_log_llh64 k [f64_zero; f64_one] [f64_1e200] lg
  = inr (S754_infinity false).
Proof.
  intro Hlg.
  replace (log_argument64 f64_one)
    with (S754_finite false 7074237752028440 (-50)) in Hlg
    by (vm_compute; reflexivity).
  cbn [np_log_may_return] in Hlg.
  replace (SFleb f64_one (S754_finite false 7074237752028440 (-50)))
    with true in Hlg by (vm_compute; reflexivity).
  cbn [negb orb] in Hlg.
  apply andb_true_iff in Hlg as [Hlg Hsign].
  apply andb_true_iff in Hlg as [Hfin _].
  apply negb_true_iff in Hsign.
  unfold neg_log_llh64. cbn [nth_error length].
  replace (divisor64 f64_one) with f64_two by (vm_compute; reflexivity).
  replace (truediv64 k f64_one f64_two) with (@inr exn f64 f64_half)
    by (destruct k; vm_compute; reflexivity).
  replace (f64_mul f64_half (f64_of_Z (Z.of_nat 1))) with f64_half
    by (vm_compute; reflexivity).
  replace (f64_mul f64_half (np_sum64 (sq_dev64 [f64_1e200] f64_zero)))
    with (S754_infinity false) by (vm_compute; reflexivity).
  destruct (f64_half_of_nonnegative lg Hfin Hsign)
    as [H | [H | (m & e & H)]]; rewrite H; reflexivity.
Qed.

(** Against C5 as stated: [theta = [0.0, 1.0]] has a positive
    variance entry and [data = [1e200]] is a finite array, yet the squared
    deviation overflows and the function returns [inf], with Python floats
    and with numpy scalars, whatever finite value [np.log] returned. *)
Lemma finite_result_for_positive_variance_counterexample :
  f64_positive f64_one = true
  /\ forallb (fun x => f64_is_finite x && f64_valid x)
       [f64_zero; f64_one; f64_1e200] = true
  /\ np_log_may_return (log_argument64 f64_one) f64_ln_2pi = true
  /\ (forall (k : scalar) (lg : f64),
        np_log_may_return (log_argument64 f64_one) lg = true ->
        exists v : f64,
          neg_log_llh64 k [f64_zero; f64_one] [f64_1e200] lg = inr v
          /\ f64_is_finite v = false).
Proof.
  split; [reflexivity|].
  split; [vm_compute; reflexivity|].
  split; [vm_compute; reflexivity|].
  intros k lg Hlg. exists (S754_infinity false).
  split; [now apply neg_log_llh64_overflow | reflexivity].
Qed.

(** C5, amended.  Which branch a call reaches is decided by the sign of
    theta[1], in float64 as the code runs.  With theta[1] > 0 the argument
    of [np.log] is positive and the divisor is positive: neither error
    branch is reachable and the call returns a value.  With theta[1] zero,
    of either sign, the logarithm is taken of zero and the divisor is zero:
    Python floats raise [ZeroDivisionError], numpy scalars return an
    infinity or [nan].  With theta[1] < 0 the logarithm is taken of a
    negative number and the result is [nan].  The value returned for
    theta[1] > 0 is finite in exact arithmetic, where it is the closed
    form; in float64 it need not be. *)
Theorem neg_log_llh_branch_decided_by_variance_sign
  (k : scalar) (mu sigma2 lg : f64) (rest data : list f64) :
  f64_valid sigma2 = true ->
  np_log_may_return (log_argument64 sigma2) lg = true ->
  let run := neg_log_llh64 k (mu :: sigma2 :: rest) data lg in
  (f64_positive sigma2 = true ->
   f64_positive (log_argument64 sigma2) = true
   /\ f64_positive (divisor64 sigma2) = true
   /\ exists v : f64, run = inr v)
  /\ (f64_is_zero sigma2 = true ->
      f64_is_zero (log_argument64 sigma2) = true
      /\ f64_is_zero (divisor64 sigma2) = true
      /\ match k with
         | PyFloat => run = inl ZeroDivisionError
         | NpFloat64 =>
             exists v : f64, run = inr v /\ f64_is_finite v = false
         end)
  /\ (f64_negative sigma2 = true ->
      f64_negative (log_argument64 sigma2) = true
      /\ f64_negative (divisor64 sigma2) = true
      /\ run = inr S754_nan)
  /\ (forall (m s2 : R) (d : list R),
        (0 < s2)%R ->
        outcome (neg_log_llh k [m; s2] d)
        = inr (Fin (nll_closed_form m s2 d))).
Proof.
  intros Hv Hlg run. subst run.
  destruct (log_argument64_sign sigma2 Hv) as (Lp & Ln & Lz).
  destruct (divisor64_sign sigma2 Hv) as (Dp & Dn & Dz).
  unfold neg_log_llh64. cbn [nth_error].
  split; [|split; [|split]].
  - intro Hs. specialize (Lp Hs). specialize (Dp Hs).
    split; [exact Lp|]. split; [exact Dp|].
    destruct (divisor64 sigma2) as [b | b | | b m e]; try discriminate Dp;
      destruct k; cbn [truediv64]; eexists; reflexivity.
  - intro Hs. specialize (Lz Hs). specialize (Dz Hs).
    split; [exact Lz|]. split; [exact Dz|].
    destruct (log_argument64 sigma2) as [bl | | |]; try discriminate Lz.
    cbn [np_log_may_return] in Hlg.
    destruct lg as [| [|] | |]; try discriminate Hlg.
    destruct (divisor64 sigma2) as [b | | |]; try discriminate Dz.
    destruct k; cbn [truediv64]; [reflexivity|].
    eexists. split; [reflexivity|].
    apply f64_add_not_finite.
    + apply f64_mul_infinity_r.
    + change (f64_div f64_one (S754_zero b)) with (S754_infinity b).
      apply f64_mul_infinity_l.
  - intro Hs. specialize (Ln Hs). specialize (Dn Hs).
    split; [exact Ln|]. split; [exact Dn|].
    assert (Hnan : lg = S754_nan).
    { destruct (log_argument64 sigma2) as [| [|] | | [|] m e];
        try discriminate Ln; cbn [np_log_may_return] in Hlg;
        destruct lg; try discriminate Hlg; reflexivity. }
    subst lg.
    destruct (divisor64 sigma2) as [b | b | | b m e]; try discriminate Dn;
      destruct k; cbn [truediv64]; rewrite f64_mul_nan_r; reflexivity.
  - intros m s2 d Hs. now rewrite neg_log_llh_pos.
Qed.

Lemma neg_log_llh_branch_decided_by_variance_sign_witness :
  f64_positive (log_argument64 f64_one) = true
  /\ f64_positive (divisor64 f64_one) = true
  /\ exists v : f64,
       neg_log_llh64 PyFloat [f64_zero; f64_one] [f64_1e200] f64_ln_2pi
       = inr v.
Proof.
  refine (proj1 (neg_log_llh_branch_decided_by_variance_sign
                   PyFloat f64_zero f64_one f64_ln_2pi [] [f64_1e200] _ _) _).
  - reflexivity.
  - vm_compute. reflexivity.
  - reflexivity.
Defined.

(** The sign of a zero variance shows in what numpy scalars return: with
    one data point away from the mean, [nan] at [0.0] and [-inf] at
    [-0.0]. *)
Lemma zero_variance_numpy_results (lg : f64) :
  (np_log_may_return (log_argument64 (S754_zero false)) lg = true ->
   neg_log_llh64 NpFloat64 [f64_zero; S754_zero false] [f64_one] lg
   = inr S754_nan)
  /\ (np_log_may_return (log_argument64 (S754_zero true)) lg = true ->
      neg_log_llh64 NpFloat64 [f64_zero; S754_zero true] [f64_one] lg
      = inr (S754_infinity true)).
Proof.
  split; intro H; vm_compute in H;
    destruct lg as [| [|] | |]; try discriminate H;
    vm_compute; reflexivity.
Qed.

End Float64.

(** The semantic half of C4: whatever the arguments, the call either returns
    the value of its one arithmetic expression, built from whatever the
    logarithm and the division returned, or ends with the exception a
    primitive raised, unchanged. *)
Lemma neg_log_llh_propagates (k : scalar) (theta data : list R) :
  (exists mu sigma2 lg q,
      nth_error theta 0 = Some mu
      /\ nth_error theta 1 = Some sigma2
      /\ outcome (np_log (2.0 * PI * sigma2)) = inr lg
      /\ outcome (truediv k 1.0 (2.0 * sigma2)) = inr q
      /\ outcome (neg_log_llh k theta data)
         = inr (fadd (fmul (Fin (0.5 * len data)) lg)
                     (fmul q (Fin (np_sum (ndarray_sq (ndarray_sub data mu)))))))
  \/ (exists e,
      outcome (neg_log_llh k theta data) = inl e
      /\ (outcome (getitem theta 0) = inl e
          \/ outcome (getitem theta 1) = inl e
          \/ exists sigma2,
               nth_error theta 1 = Some sigma2
               /\ outcome (truediv k 1.0 (2.0 * sigma2)) = inl e)).
Proof.
  destruct theta as [|mu [|sigma2 rest]].
  - right. exists IndexError. split; [reflexivity | left; reflexivity].
  - right. exists IndexError. split; [reflexivity | right; left; reflexivity].
  - cbv [neg_log_llh getitem bind ret outcome nth_error np_log snd app].
    destruct (truediv k 1.0 (2.0 * sigma2)) as [t [e | q]] eqn:Hd.
    + right. exists e. split; [reflexivity|].
      right; right. exists sigma2. rewrite Hd. split; reflexivity.
    + left. exists mu, sigma2. eexists. exists q. rewrite Hd.
      repeat split; reflexivity.
Qed.

(** ** The sample mean and variance minimise the negative log-likelihood *)

Lemma np_sum_shift (data : list R) (c : R) :
  np_sum (map (fun x => x - c) data) = np_sum data - INR (length data) * c.
Proof.
  induction data as [|x data IH].
  - simpl. ring.
  - change (length (x :: data)) with (S (length data)). rewrite S_INR.
    cbn [map]. rewrite !np_sum_cons, IH. ring.
Qed.

(** Sum of squares about [mu], expanded about any other centre [c]. *)
Lemma sum_sq_recentre (data : list R) (c mu : R) :
  np_sum (map (fun x => (x - mu) ^ 2) data)
  = np_sum (map (fun x => (x - c) ^ 2) data)
    + 2 * (c - mu) * np_sum (map (fun x => x - c) data)
    + INR (length data) * (c - mu) ^ 2.
Proof.
  induction data as [|x data IH].
  - simpl. ring.
  - change (length (x :: data)) with (S (length data)). rewrite S_INR.
    cbn [map]. rewrite !np_sum_cons, IH. ring.
Qed.

Lemma np_sum_nonneg_zero (f : R -> R) (data : list R) :
  (forall x, 0 <= f x) ->
  np_sum (map f data) = 0 ->
  forall x, In x data -> f x = 0.
Proof.
  intros Hf. induction data as [|y data IH]; intros Hsum x Hin.
  - destruct Hin.
  - cbn [map] in Hsum. rewrite np_sum_cons in Hsum.
    assert (Hrest : 0 <= np_sum (map f data)).
    { clear - Hf. induction data as [|z data IHd]; cbn [map].
      - simpl. lra.
      - rewrite np_sum_cons. pose proof (Hf z). lra. }
    pose proof (Hf y) as Hy.
    destruct Hin as [-> | Hin].
    + lra.
    + apply IH; [lra | assumption].
Qed.

Lemma np_sum_sq_about_nonneg (data : list R) (c : R) :
  0 <= np_sum (map (fun x => (x - c) ^ 2) data).
Proof.
  rewrite <- sq_sub_map. apply np_sum_sq_nonneg.
Qed.

Lemma two_distinct_sum_sq_pos (data : list R) (c : R) :
  two_distinct data -> 0 < np_sum (map (fun x => (x - c) ^ 2) data).
Proof.
  intros (a & b & Ha & Hb & Hab).
  destruct (np_sum_sq_about_nonneg data c) as [Hlt | Heq]; [exact Hlt|].
  exfalso. apply Hab.
  assert (Hz : forall x, In x data -> (x - c) ^ 2 = 0).
  { apply np_sum_nonneg_zero; [intro x; apply pow2_ge_0 | now symmetry]. }
  pose proof (Hz a Ha) as Ea. pose proof (Hz b Hb) as Eb.
  assert (a - c = 0) by nra. assert (b - c = 0) by nra. lra.
Qed.

Lemma two_distinct_length (data : list R) :
  two_distinct data -> 0 < INR (length data).
Proof.
  intros (a & _ & Ha & _).
  destruct data as [|x data]; [destruct Ha|].
  apply lt_0_INR. simpl. lia.
Qed.

(** [ln t <= t - 1], with equality only at [t = 1]. *)
Lemma ln_le_sub1 (t : R) : 0 < t -> ln t <= t - 1 /\ (ln t = t - 1 -> t = 1).
Proof.
  intro Ht.
  destruct (Req_dec_T t 1) as [-> | Hne].
  - rewrite ln_1. split; [lra | reflexivity].
  - assert (Hlt : ln t < t - 1).
    { rewrite <- (ln_exp (t - 1)). apply ln_increasing; [exact Ht|].
      pose proof (exp_ineq1 (t - 1)). lra. }
    split; [lra | intro; lra].
Qed.

(** The closed form at any [(mu, sigma2)] against its value at the sample
    mean [m] and the population variance [v], through the sum of squares
    [q] about the mean: [q = n v]. *)
Lemma nll_gap (n m v q mu sigma2 : R) :
  0 < n -> 0 < v -> 0 < sigma2 -> q = n * v ->
  let best := n / 2 * ln (2 * PI * v) + 1 / (2 * v) * q in
  let r := n / 2 * ln (2 * PI * sigma2)
           + 1 / (2 * sigma2) * (q + 2 * (m - mu) * 0 + n * (m - mu) ^ 2) in
  best <= r /\ (r = best -> mu = m /\ sigma2 = v).
Proof.
  intros Hn Hv Hs Hq best r.
  pose proof PI_RGT_0 as HP.
  assert (H2p : 0 < 2 * PI) by lra.
  assert (Lv : ln (2 * PI * v) = ln (2 * PI) + ln v) by now apply ln_mult.
  assert (Ls : ln (2 * PI * sigma2) = ln (2 * PI) + ln sigma2)
    by now apply ln_mult.
  set (t := v / sigma2).
  assert (Ht : 0 < t) by now apply Rdiv_lt_0_compat.
  assert (Lt : ln t = ln v - ln sigma2).
  { unfold t, Rdiv. rewrite ln_mult; [|assumption|now apply Rinv_0_lt_compat].
    rewrite ln_Rinv by assumption. ring. }
  destruct (ln_le_sub1 t Ht) as [Hle Heq].
  set (d := (m - mu) ^ 2 / sigma2).
  assert (Hd : 0 <= d).
  { unfold d. apply Rmult_le_pos; [apply pow2_ge_0|].
    left. now apply Rinv_0_lt_compat. }
  assert (Egap : r - best = n / 2 * (t - 1 - ln t) + n / 2 * d).
  { unfold r, best, t, d. rewrite Lv, Ls. subst q.
    replace (ln (v / sigma2)) with (ln v - ln sigma2)
      by (symmetry; exact Lt).
    field. lra. }
  assert (Hnd : 0 <= n / 2 * d) by (apply Rmult_le_pos; lra).
  assert (Hnt : 0 <= n / 2 * (t - 1 - ln t)) by (apply Rmult_le_pos; lra).
  split; [lra|].
  intro E.
  assert (Z1 : n / 2 * d = 0) by lra.
  assert (Z2 : n / 2 * (t - 1 - ln t) = 0) by lra.
  assert (Hd0 : d = 0) by nra.
  assert (Ht0 : t - 1 - ln t = 0) by nra.
  assert (Ht1 : t = 1) by (apply Heq; lra).
  split.
  - assert (Hsq : (m - mu) ^ 2 = 0).
    { unfold d in Hd0. apply (Rmult_eq_compat_r sigma2) in Hd0.
      unfold Rdiv in Hd0. rewrite Rmult_assoc, Rinv_l in Hd0 by lra. lra. }
    assert (m - mu = 0) by nra. lra.
  - unfold t in Ht1. apply (Rmult_eq_compat_r sigma2) in Ht1.
    unfold Rdiv in Ht1. rewrite Rmult_assoc, Rinv_l in Ht1 by lra. lra.
Qed.

(** C2.  For every finite real data array containing at least two distinct
    values, the pair (data.mean(), data.var()) is the unique minimiser of
    [neg_log_llh([mu, sigma2], data)] over all real mu and all sigma2 > 0. *)
Theorem sample_mean_var_unique_minimizer (k : scalar) (data : list R) :
  two_distinct data ->
  exists m v best : R,
    ndarray_mean data = Fin m
    /\ ndarray_var data = Fin v
    /\ 0 < v
    /\ outcome (neg_log_llh k [m; v] data) = inr (Fin best)
    /\ forall mu sigma2 : R, 0 < sigma2 ->
         exists r : R,
           outcome (neg_log_llh k [mu; sigma2] data) = inr (Fin r)
           /\ best <= r
           /\ (r = best -> mu = m /\ sigma2 = v).
Proof.
  intro Hdist.
  pose proof (two_distinct_length data Hdist) as Hn.
  set (n := INR (length data)) in *.
  set (m := np_sum data / n).
  set (q := np_sum (map (fun x => (x - m) ^ 2) data)).
  pose proof (two_distinct_sum_sq_pos data m Hdist) as Hq. fold q in Hq.
  set (v := q / n).
  assert (Hv : 0 < v) by now apply Rdiv_lt_0_compat.
  assert (Em : ndarray_mean data = Fin m).
  { clear - Hdist. subst m n. destruct Hdist as (a & _ & Ha & _).
    destruct data as [|x data]; [destruct Ha | reflexivity]. }
  assert (Ev : ndarray_var data = Fin v).
  { unfold ndarray_var. rewrite Em. unfold v, q. fold n.
    do 3 f_equal. apply map_ext. intro x. apply pow2_abs. }
  assert (Ecentre : np_sum (map (fun x => x - m) data) = 0).
  { rewrite np_sum_shift. unfold m. fold n. field. lra. }
  assert (Eqnv : q = n * v) by (unfold v; field; lra).
  exists m, v, (nll_closed_form m v data).
  repeat split; try assumption.
  - now rewrite neg_log_llh_pos.
  - intros mu sigma2 Hs.
    exists (nll_closed_form mu sigma2 data).
    split; [now rewrite neg_log_llh_pos|].
    unfold nll_closed_form. fold n. fold q.
    rewrite (sum_sq_recentre data m mu). fold n. fold q. rewrite Ecentre.
    exact (nll_gap n m v q mu sigma2 Hn Hv Hs Eqnv).
Qed.

Lemma sample_mean_var_unique_minimizer_witness :
  exists m v best : R,
    ndarray_mean [1; 3] = Fin m
    /\ ndarray_var [1; 3] = Fin v
    /\ 0 < v
    /\ outcome (neg_log_llh PyFloat [m; v] [1; 3]) = inr (Fin best)
    /\ forall mu sigma2 : R, 0 < sigma2 ->
         exists r : R,
           outcome (neg_log_llh PyFloat [mu; sigma2] [1; 3]) = inr (Fin r)
           /\ best <= r
           /\ (r = best -> mu = m /\ sigma2 = v).
Proof.
  apply (sample_mean_var_unique_minimizer PyFloat [1; 3]).
  exists 1, 3. simpl. repeat split; auto. lra.
Defined.

(** * The notebooks *)

Section Notebooks.

Local Close Scope R_scope.
Local Open Scope string_scope.

(** ** More fuel never changes a result *)

Lemma refines_refl {A : Type} (r : res A) : refines r r.
Proof. now right. Qed.

Lemma refines_trans {A : Type} (r1 r2 r3 : res A) :
  refines r1 r2 -> refines r2 r3 -> refines r1 r3.
Proof.
  intros [-> | ->] H; [now left | exact H].
Qed.

Lemma refines_bind {A B : Type} (r r' : res A) (k k' : A -> res B) :
  refines r r' -> (forall a, refines (k a) (k' a)) ->
  refines (bind_res r k) (bind_res r' k').
Proof.
  intros [-> | ->] Hk; [now left|].
  destruct r' as [a | f]; simpl; [apply Hk | apply refines_refl].
Qed.

Lemma refines_fold_res {A : Type} (s s' : kernel -> A -> res kernel) :
  (forall K a, refines (s K a) (s' K a)) ->
  forall l K, refines (fold_res s K l) (fold_res s' K l).
Proof.
  intros Hs l. induction l as [|a l IH]; intro K; simpl.
  - apply refines_refl.
  - apply refines_bind; [apply Hs | intro K1; apply IH].
Qed.

Lemma refines_run_block (e1 e2 : kernel -> scope -> stmt -> res after) :
  (forall K L s, refines (e1 K L s) (e2 K L s)) ->
  forall ss K L, refines (run_block e1 K L ss) (run_block e2 K L ss).
Proof.
  intros He ss. induction ss as [|s ss IH]; intros K L; simpl.
  - apply refines_refl.
  - apply refines_bind; [apply He|].
    intros [[K1 L1] [|]]; [apply refines_refl | apply IH].
Qed.

Lemma refines_run_loop (b1 b2 : kernel -> scope -> res after) (x : string) :
  (forall K L, refines (b1 K L) (b2 K L)) ->
  forall count K L,
    refines (run_loop b1 x count K L) (run_loop b2 x count K L).
Proof.
  intros Hb count. induction count as [|count IH]; intros K L; simpl.
  - apply refines_refl.
  - destruct (bind_name K L x) as [K0 L0].
    apply refines_bind; [apply Hb|].
    intros [[K1 L1] [|]]; [apply refines_refl | apply IH].
Qed.

Section StepMonotone.

Variables I J : interp.
Hypothesis HIJ : interp_le I J.

Lemma call_mono (K : kernel) (ps : list string) (body : list stmt) :
  refines (call I K ps body) (call J K ps body).
Proof.
  unfold call. apply refines_bind; [apply HIJ | intro; apply refines_refl].
Qed.

Lemma call_back_mono (K : kernel) (L : scope) (a : expr) :
  refines (call_back I K L a) (call_back J K L a).
Proof.
  unfold call_back.
  destruct a; try apply HIJ;
    (destruct (own_function K L _) as [[ps body]|];
     [apply call_mono | apply refines_refl]).
Qed.

Lemma eval_step_mono (K : kernel) (L : scope) (e : expr) :
  refines (eval_step I K L e) (eval_step J K L e).
Proof.
  destruct HIJ as [He _].
  destruct e; simpl; try apply refines_refl; try apply He.
  - apply refines_bind; [apply He | intro; apply He].
  - apply refines_bind; [apply He | intro K1].
    apply refines_bind.
    + apply refines_fold_res. intros; apply He.
    + intro K2. destruct (own_function K2 L e) as [[ps body]|].
      * apply call_mono.
      * apply refines_fold_res. intros; apply call_back_mono.
  - apply refines_bind; [apply He | intro; apply He].
  - apply refines_fold_res. intros; apply He.
  - apply refines_fold_res. intros; apply He.
  - apply refines_fold_res. intros; apply He.
Qed.

Lemma exec_step_mono (K : kernel) (L : scope) (s : stmt) :
  refines (exec_step I K L s) (exec_step J K L s).
Proof.
  destruct HIJ as [He Hb].
  destruct s; simpl; try apply refines_refl.
  - apply refines_bind; [apply He | intro K1].
    destruct target; try apply refines_refl.
    apply refines_bind; [apply He | intro; apply refines_refl].
  - apply refines_bind; [apply He | intro; apply refines_refl].
  - destruct L; [|apply refines_refl].
    apply refines_bind; [apply He | intro; apply refines_refl].
  - apply refines_bind; [apply He | intro K1].
    destruct iter; try apply refines_refl.
    destruct iter; try apply refines_refl.
    destruct id as [|a0 id]; try apply refines_refl.
    repeat
      match goal with
      | |- refines (match ?x with _ => _ end) _ =>
          destruct x; try apply refines_refl
      | |- refines (if ?x then _ else _) _ =>
          destruct x; try apply refines_refl
      end.
    apply refines_run_loop. intros; apply Hb.
Qed.

Lemma step_mono : interp_le (step I) (step J).
Proof.
  split; simpl.
  - apply eval_step_mono.
  - intros K L ss. apply refines_run_block. apply exec_step_mono.
Qed.

End StepMonotone.

Lemma interp_at_succ (n : nat) : interp_le (interp_at n) (interp_at (S n)).
Proof.
  induction n as [|n IH].
  - split; intros; now left.
  - apply step_mono. exact IH.
Qed.

Lemma interp_at_le (n m : nat) :
  (n <= m)%nat -> interp_le (interp_at n) (interp_at m).
Proof.
  induction 1 as [|m Hle IH].
  - split; intros; apply refines_refl.
  - destruct IH as [He Hb]. destruct (interp_at_succ m) as [He' Hb'].
    split; intros; eapply refines_trans; eauto.
Qed.

Lemma run_cell_mono (n m : nat) (K : kernel) (c : cell) :
  (n <= m)%nat -> refines (run_cell n K c) (run_cell m K c).
Proof.
  intro Hle. destruct c as [p | src]; simpl.
  - apply refines_refl.
  - apply refines_bind; [apply (interp_at_le n m Hle) | intro; apply refines_refl].
Qed.

(** A run that did not stop for lack of fuel ends the same way with any
    larger amount of it. *)
Lemma run_cells_mono (n m : nat) (cells : list cell) :
  (n <= m)%nat ->
  forall (i : nat) (K : kernel),
    (forall j K', run_cells n i K cells <> Stopped j OutOfFuel K') ->
    run_cells m i K cells = run_cells n i K cells.
Proof.
  intro Hle. induction cells as [|c cells IH]; intros i K Hdef; simpl in *.
  - reflexivity.
  - destruct (run_cell_mono n m K c Hle) as [E | E].
    + rewrite E in Hdef. exfalso. now apply (Hdef i K).
    + rewrite <- E. destruct (run_cell n K c) as [K1 | f].
      * now apply IH.
      * reflexivity.
Qed.

Lemma run_cells_enough (fuel : nat) (cells : list cell) (i : nat)
  (K : kernel) (r : run) :
  run_cells fuel_enough i K cells = r ->
  out_of_fuel r = false ->
  (fuel_enough <= fuel)%nat ->
  run_cells fuel i K cells = r.
Proof.
  intros Hr Hdef Hle. rewrite (run_cells_mono fuel_enough fuel cells Hle).
  - exact Hr.
  - intros j K' E. rewrite Hr in E. rewrite E in Hdef. discriminate Hdef.
Qed.

Lemma run_cell_enough (fuel : nat) (K K' : kernel) (c : cell) :
  run_cell fuel_enough K c = Ok K' ->
  (fuel_enough <= fuel)%nat ->
  run_cell fuel K c = Ok K'.
Proof.
  intros Hr Hle.
  destruct (run_cell_mono fuel_enough fuel K c Hle) as [E | E];
    congruence.
Qed.

(** ** What the cells are made of *)

Lemma In_combine_seq {A : Type} (l : list A) :
  forall (s i : nat) (c : A),
    nth_error l i = Some c ->
    In ((s + i)%nat, c) (combine (seq s (List.length l)) l).
Proof.
  induction l as [|a l IH]; intros s i c Hnth.
  - destruct i; discriminate.
  - destruct i as [|i]; simpl in *.
    + injection Hnth as ->. left. f_equal. lia.
    + right. replace (s + S i)%nat with (S s + i)%nat by lia.
      now apply IH.
Qed.

Lemma cells_where_complete (p : cell -> bool) (nb : notebook) (i : nat)
  (c : cell) :
  nth_error nb i = Some c -> p c = true -> In i (cells_where p nb).
Proof.
  intros Hnth Hp. unfold cells_where.
  change i with (fst (i, c)). apply in_map. apply filter_In. split.
  - exact (In_combine_seq nb 0 i c Hnth).
  - exact Hp.
Qed.

(** Against C3 as stated: the cell that defines [neg_log_llh] is neither
    prose, nor a plotting call, nor a call into a library.  It is a function
    definition, and its body does arithmetic of its own. *)
Lemma every_cell_library_call_counterexample :
  exists src : list stmt,
    nth_error mle_nb 12 = Some (Code src)
    /\ defined_in_cell (Code src) = ["neg_log_llh"]
    /\ cell_library_only (defined_functions mle_nb) (Code src) = false
    /\ cell_has_arith (Code src) = true
    /\ ~ (forall nb c, In nb repository -> In c nb ->
          cell_library_only (defined_functions nb) c = true).
Proof.
  eexists. split; [reflexivity|]. split; [reflexivity|].
  split; [reflexivity|]. split; [reflexivity|].
  intro H.
  assert (Hin : In mle_nb repository) by (simpl; auto).
  assert (Hc : In (nth 12 mle_nb (Markdown "")) mle_nb)
    by (apply nth_In; vm_compute; lia).
  specialize (H mle_nb _ Hin Hc). vm_compute in H. discriminate.
Qed.

(** C3, amended.  The repository defines two functions of its own, both in
    the MLE notebook: [neg_log_llh] and its wrapper [print_log_llh].  Every
    cell of the four notebooks other than the five that define or use them
    (cells 12, 13, 17, 18 and 25 of the MLE notebook) is prose, an import, an
    assignment, a display or a call into a library.  Arithmetic operators
    occur in the body of [neg_log_llh] and in two one-operator expressions
    (cells 47 and 53), and [neg_log_llh] is load-bearing: it is the objective
    handed to [minimize] in cell 25. *)
Theorem repository_cells_library_only_except_nll :
  map defined_functions repository
  = [[]; []; []; ["neg_log_llh"; "print_log_llh"]]
  /\ (forall nb i c,
        In nb repository ->
        nth_error nb i = Some c ->
        cell_library_only (defined_functions nb) c = false ->
        nb = mle_nb /\ In i [12; 13; 17; 18; 25]%nat)
  /\ (forall nb i c,
        In nb repository ->
        nth_error nb i = Some c ->
        cell_has_arith c = true ->
        nb = mle_nb /\ In i [12; 47; 53]%nat)
  /\ nth_error mle_nb 25
     = Some (Code
               [Assign (Name "fit")
                  (Call (Name "minimize")
                     [Lambda ["theta"]
                        (Call (Name "neg_log_llh")
                           [Name "theta"; Name "data"] []);
                      ListE [FloatLit "4.0"; FloatLit "2.0"]] []);
                Expr (Name "fit")]).
Proof.
  split; [vm_compute; reflexivity|].
  split; [|split; [|vm_compute; reflexivity]].
  - intros nb i c Hnb Hnth Hc.
    assert (Hin : In i (cells_where
                          (fun c0 => negb (cell_library_only
                                             (defined_functions nb) c0)) nb)).
    { apply (cells_where_complete _ nb i c Hnth). now rewrite Hc. }
    destruct Hnb as [<- | [<- | [<- | [<- | []]]]];
      vm_compute in Hin; try contradiction.
    split; [reflexivity | exact Hin].
  - intros nb i c Hnb Hnth Hc.
    pose proof (cells_where_complete cell_has_arith nb i c Hnth Hc) as Hin.
    destruct Hnb as [<- | [<- | [<- | [<- | []]]]];
      vm_compute in Hin; try contradiction.
    split; [reflexivity | exact Hin].
Qed.

Lemma repository_cells_library_only_except_nll_witness :
  mle_nb = mle_nb /\ In 12%nat [12; 13; 17; 18; 25]%nat.
Proof.
  destruct repository_cells_library_only_except_nll as (_ & H & _).
  apply (H mle_nb 12%nat (nth 12 mle_nb (Markdown ""))).
  - simpl. auto.
  - reflexivity.
  - vm_compute. reflexivity.
Defined.

(** C4.  No code of the repository validates input or handles errors.  No
    cell contains a branch, a handler, a raise or an assertion; and for every
    input [neg_log_llh] either returns the value of its single expression or
    ends with the exception raised by a primitive ([IndexError] from
    indexing a malformed parameter vector, [ZeroDivisionError] from the
    division), unchanged. *)
Theorem no_validation_or_error_handling
  (k : scalar) (theta data : list R) :
  (forall nb c, In nb repository -> In c nb -> cell_guards c = false)
  /\ ((exists mu sigma2 lg q,
         nth_error theta 0 = Some mu
         /\ nth_error theta 1 = Some sigma2
         /\ outcome (np_log (2.0 * PI * sigma2)) = inr lg
         /\ outcome (truediv k 1.0 (2.0 * sigma2)) = inr q
         /\ outcome (neg_log_llh k theta data)
            = inr (fadd (fmul (Fin (0.5 * len data)) lg)
                        (fmul q (Fin (np_sum
                                        (ndarray_sq (ndarray_sub data mu)))))))
      \/ (exists e,
            outcome (neg_log_llh k theta data) = inl e
            /\ (outcome (getitem theta 0) = inl e
                \/ outcome (getitem theta 1) = inl e
                \/ exists sigma2,
                     nth_error theta 1 = Some sigma2
                     /\ outcome (truediv k 1.0 (2.0 * sigma2)) = inl e))).
Proof.
  split.
  - assert (Hall : forallb (forallb (fun c => negb (cell_guards c)))
                     repository = true) by (vm_compute; reflexivity).
    intros nb c Hnb Hc.
    rewrite forallb_forall in Hall. specialize (Hall nb Hnb).
    rewrite forallb_forall in Hall. specialize (Hall c Hc).
    now apply negb_true_iff in Hall.
  - apply neg_log_llh_propagates.
Qed.

Lemma no_validation_or_error_handling_witness :
  cell_guards (nth 12 mle_nb (Markdown "")) = false.
Proof.
  destruct (no_validation_or_error_handling PyFloat [1%R] [2%R]) as [H _].
  apply (H mle_nb).
  - simpl. auto.
  - apply nth_In. vm_compute. lia.
Defined.

(** C6.  The fitting route does not run: the notebook imports [norm] from
    [scipy.stats] but never binds [stats], so cell 45,
    [mu_hat, sigma_hat = stats.norm.fit(data)], stops with a [NameError] and
    binds no estimate. *)
Theorem mle_fit_cell_name_error :
  exists K : kernel,
    run_notebook mle_nb = Stopped 45 (NameError "stats") K
    /\ (forall fuel, (fuel_enough <= fuel)%nat ->
        run_cells fuel 0 fresh_kernel mle_nb
        = Stopped 45 (NameError "stats") K)
    /\ nth_error mle_nb 35
       = Some (Code [ImportFrom "scipy.stats" [("norm", "norm")]])
    /\ nth_error mle_nb 45
       = Some (Code
                 [Assign (TupleE [Name "mu_hat"; Name "sigma_hat"])
                    (Call (Attribute (Attribute (Name "stats") "norm") "fit")
                       [Name "data"] [])])
    /\ mem "stats" (bound_anywhere mle_nb) = false
    /\ mem "norm" (globals K) = true
    /\ mem "mu_hat" (globals K) = false
    /\ mem "sigma_hat" (globals K) = false.
Proof.
  eexists.
  split; [vm_compute; reflexivity|].
  split.
  { intros fuel Hle. apply run_cells_enough; [|reflexivity|exact Hle].
    vm_compute; reflexivity. }
  repeat (split; [vm_compute; reflexivity|]).
  vm_compute; reflexivity.
Qed.

Lemma mle_fit_cell_name_error_witness :
  exists K : kernel,
    run_cells 40 0 fresh_kernel mle_nb = Stopped 45 (NameError "stats") K.
Proof.
  destruct mle_fit_cell_name_error as (K & _ & H & _).
  exists K. apply H. unfold fuel_enough. lia.
Defined.

(** C8.  Running the cells of the modelling-overview notebook in order stops
    with a [NameError] at the prediction cell, cell 19: it reads
    [best_parameter], a name that no statement of the notebook binds; the
    inference cell, cell 17, binds the estimate to [beta_hat].  [new_data]
    is never bound: no prediction is produced. *)
Theorem modelling_overview_prediction_name_error :
  exists K : kernel,
    run_notebook modelling_overview_nb
    = Stopped 19 (NameError "best_parameter") K
    /\ (forall fuel, (fuel_enough <= fuel)%nat ->
        run_cells fuel 0 fresh_kernel modelling_overview_nb
        = Stopped 19 (NameError "best_parameter") K)
    /\ nth_error modelling_overview_nb 17
       = Some (Code
                 [Assign (Name "beta_hat")
                    (Call (Attribute (Name "observed_data") "mean") [] [])])
    /\ nth_error modelling_overview_nb 19
       = Some (Code
                 [Assign (Name "new_data")
                    (Call
                       (Attribute (Attribute (Name "np") "random")
                          "exponential")
                       [Name "best_parameter"; IntLit 20] []);
                  Expr (Name "new_data")])
    /\ mem "best_parameter" (bound_anywhere modelling_overview_nb) = false
    /\ mem "beta_hat" (globals K) = true
    /\ mem "new_data" (globals K) = false.
Proof.
  eexists.
  split; [vm_compute; reflexivity|].
  split.
  { intros fuel Hle. apply run_cells_enough; [|reflexivity|exact Hle].
    vm_compute; reflexivity. }
  repeat (split; [vm_compute; reflexivity|]).
  vm_compute; reflexivity.
Qed.

Lemma modelling_overview_prediction_name_error_witness :
  exists K : kernel,
    run_cells 40 0 fresh_kernel modelling_overview_nb
    = Stopped 19 (NameError "best_parameter") K.
Proof.
  destruct modelling_overview_prediction_name_error as (K & _ & H & _).
  exists K. apply H. unfold fuel_enough. lia.
Defined.

(** C9.  The training loop is [for i in range(1000)]: started from the
    kernel the TensorFlow section sets up, it ends after exactly 1000 calls
    of [sess.run]; that is not the 100 steps the prose announces. *)
Theorem training_loop_takes_1000_steps :
  (forall fuel, (fuel_enough <= fuel)%nat ->
     run_cells fuel 0 fresh_kernel (firstn 45 mle_nb)
     = Finished kernel_before_fit
     /\ run_cells fuel 48 kernel_before_fit tf_setup_cells
        = Finished kernel_before_training
     /\ run_cell fuel kernel_before_training training_cell
        = Ok kernel_after_training)
  /\ training_cell
     = Code
         [For "i" (Call (Name "range") [IntLit 1000] [])
            [Expr (Call (Attribute (Name "sess") "run")
                     [Name "train"; DictE [(Name "x", Name "data")]] [])]]
  /\ count_calls "sess.run" kernel_after_training
     = (count_calls "sess.run" kernel_before_training + 1000)%nat
  /\ contains "we have to take 100 steps explicitly"
       (prose_of (nth 59 mle_nb (Markdown ""))) = true
  /\ (1000 <> stated_steps)%nat.
Proof.
  split.
  { intros fuel Hle. split; [|split].
    - apply run_cells_enough; [|reflexivity|exact Hle].
      vm_compute; reflexivity.
    - apply run_cells_enough; [|reflexivity|exact Hle].
      vm_compute; reflexivity.
    - apply run_cell_enough; [|exact Hle]. vm_compute; reflexivity. }
  split; [reflexivity|].
  split; [vm_compute; reflexivity|].
  split; [vm_compute; reflexivity|].
  unfold stated_steps. lia.
Qed.

Lemma training_loop_takes_1000_steps_witness :
  run_cell 40 kernel_before_training training_cell = Ok kernel_after_training.
Proof.
  destruct training_loop_takes_1000_steps as (H & _).
  apply (H 40%nat). unfold fuel_enough. lia.
Defined.

End Notebooks.

(** * The recorded example *)

(** ** From the rational partial sums to the real series *)

Lemma Q2R_inject_Z (z : Z) : Q2R (inject_Z z) = IZR z.
Proof. unfold Q2R, inject_Z; simpl. field. Qed.

(** Integer literals of [Q] become the same literals of [R]. *)
Ltac q2r_numerals :=
  repeat match goal with
    | |- context [Q2R (Qmake ?z 1)] =>
        change (Q2R (Qmake z 1)) with (Q2R (inject_Z z));
        rewrite (Q2R_inject_Z z)
    | H : context [Q2R (Qmake ?z 1)] |- _ =>
        change (Q2R (Qmake z 1)) with (Q2R (inject_Z z)) in H;
        rewrite (Q2R_inject_Z z) in H
    end.

Lemma Q2R_powQ (y : Q) (k : nat) : Q2R (powQ y k) = Q2R y ^ k.
Proof.
  induction k as [|k IH]; simpl.
  - q2r_numerals. reflexivity.
  - rewrite Q2R_mult, IH. reflexivity.
Qed.

Lemma factZ_pos (k : nat) : (0 < factZ k)%Z.
Proof.
  induction k as [|k IH]; [reflexivity|].
  change (factZ (S k)) with (Z.of_nat (S k) * factZ k)%Z.
  apply Z.mul_pos_pos; [lia | exact IH].
Qed.

Lemma IZR_factZ (k : nat) : IZR (factZ k) = INR (fact k).
Proof.
  induction k as [|k IH].
  - reflexivity.
  - rewrite fact_simpl, mult_INR, <- IH.
    change (factZ (S k)) with (Z.of_nat (S k) * factZ k)%Z.
    rewrite mult_IZR, <- INR_IZR_INZ. reflexivity.
Qed.

Lemma Q2R_signQ (k : nat) : Q2R (signQ k) = (-1) ^ k.
Proof.
  induction k as [|k IH].
  - unfold signQ, Q2R; simpl. field.
  - unfold signQ in *. rewrite Nat.even_succ, <- Nat.negb_even.
    destruct (Nat.even k); simpl negb; cbv iota in IH |- *.
    + rewrite <- tech_pow_Rmult, <- IH. unfold Q2R; simpl. field.
    + rewrite <- tech_pow_Rmult, <- IH. unfold Q2R; simpl. field.
Qed.

Lemma Q2R_alt_sumQ (u : nat -> Q) (U : nat -> R) :
  (forall k, Q2R (u k) = U k) ->
  forall n, Q2R (alt_sumQ u n) = sum_f_R0 (tg_alt U) n.
Proof.
  intros HU n. induction n as [|n IH]; simpl.
  - rewrite HU. unfold tg_alt. simpl. ring.
  - rewrite Q2R_plus, Q2R_mult, IH, HU, Q2R_signQ. reflexivity.
Qed.

Lemma Q2R_exp_termQ (y : Q) (k : nat) :
  Q2R (exp_termQ y k) = Q2R y ^ k / INR (fact k).
Proof.
  unfold exp_termQ.
  rewrite Q2R_div.
  - rewrite Q2R_powQ, Q2R_inject_Z, IZR_factZ. reflexivity.
  - intro H. pose proof (factZ_pos k) as Hp.
    unfold Qeq, inject_Z in H; simpl in H. lia.
Qed.

Lemma Q2R_atan_termQ (x : Q) (k : nat) :
  Q2R (atan_termQ x k) = Ratan_seq (Q2R x) k.
Proof.
  unfold atan_termQ, Ratan_seq.
  rewrite Q2R_div.
  - rewrite Q2R_powQ, Q2R_inject_Z, <- INR_IZR_INZ. reflexivity.
  - intro H. unfold Qeq, inject_Z in H; simpl in H. lia.
Qed.

Lemma Q2R_pi_termQ (k : nat) : Q2R (pi_termQ k) = PI_2_3_7_tg k.
Proof.
  unfold pi_termQ, PI_2_3_7_tg.
  rewrite Q2R_plus, Q2R_mult, !Q2R_atan_termQ.
  replace (Q2R (1 # 3)) with (/ 3) by (unfold Q2R; simpl; field).
  replace (Q2R (1 # 7)) with (/ 7) by (unfold Q2R; simpl; field).
  q2r_numerals. reflexivity.
Qed.

Lemma PI_enclosure : Q2R pi_lo <= PI <= Q2R pi_hi.
Proof.
  destruct (PI_2_3_7_ineq 5) as [Hlo Hhi].
  change (S (2 * 5)) with 11%nat in Hlo. change (2 * 5)%nat with 10%nat in Hhi.
  rewrite <- (Q2R_alt_sumQ pi_termQ _ Q2R_pi_termQ) in Hlo, Hhi.
  unfold pi_lo, pi_hi. rewrite !Q2R_mult. q2r_numerals.
  lra.
Qed.

(** Partial sums of the alternating series of [exp (- y)], for [0 <= y <= 1]. *)
Lemma exp_neg_alt_bounds (y : R) (N : nat) :
  0 <= y <= 1 ->
  sum_f_R0 (tg_alt (fun k => y ^ k / INR (fact k))) (S (2 * N)) <= exp (- y)
  <= sum_f_R0 (tg_alt (fun k => y ^ k / INR (fact k))) (2 * N).
Proof.
  intros [Hy0 Hy1].
  apply alternated_series_ineq.
  - intro n. unfold Rdiv.
    rewrite fact_simpl, mult_INR, <- tech_pow_Rmult.
    assert (Hf : 0 < INR (fact n)) by apply INR_fact_lt_0.
    assert (Hs : 1 <= INR (S n)) by (rewrite S_INR; pose proof (pos_INR n); lra).
    assert (Hp : 0 <= y ^ n) by now apply pow_le.
    rewrite Rinv_mult.
    assert (Hi : 0 < / INR (fact n)) by now apply Rinv_0_lt_compat.
    assert (Hq : 0 <= y ^ n * / INR (fact n)) by (apply Rmult_le_pos; lra).
    assert (His : 0 < / INR (S n) <= 1).
    { split; [apply Rinv_0_lt_compat; lra|].
      rewrite <- Rinv_1. apply Rinv_le_contravar; lra. }
    replace (y * y ^ n * (/ INR (S n) * / INR (fact n)))
      with ((y * / INR (S n)) * (y ^ n * / INR (fact n))) by ring.
    assert (Hyi : 0 <= y * / INR (S n) <= 1) by (split; nra).
    nra.
  - apply cv_speed_pow_fact.
  - unfold exp. destruct (exist_exp (- y)) as [l Hl]. simpl.
    unfold exp_in, infinite_sum in Hl. intros eps Heps.
    destruct (Hl eps Heps) as [n0 Hn0]. exists n0. intros n Hn.
    replace (sum_f_R0 (tg_alt (fun k => y ^ k / INR (fact k))) n)
      with (sum_f_R0 (fun i => / INR (fact i) * (- y) ^ i) n).
    + now apply Hn0.
    + apply sum_eq. intros i _. unfold tg_alt.
      replace (- y) with (-1 * y) by ring. rewrite Rpow_mult_distr.
      unfold Rdiv. ring.
Qed.

Lemma exp_neg_Q_bounds (y : Q) (N : nat) :
  0 <= Q2R y <= 1 ->
  Q2R (alt_sumQ (exp_termQ y) (S (2 * N))) <= exp (- Q2R y)
  <= Q2R (alt_sumQ (exp_termQ y) (2 * N)).
Proof.
  intro Hy.
  rewrite !(Q2R_alt_sumQ (exp_termQ y) _ (Q2R_exp_termQ y)).
  now apply exp_neg_alt_bounds.
Qed.

Lemma Q2R_half (q : Q) : Q2R (half q) = Q2R q / 2.
Proof.
  unfold half. rewrite Q2R_div.
  - q2r_numerals. reflexivity.
  - intro H. discriminate H.
Qed.

Lemma Q2R_unit_interval (y : Q) : (0 <= y)%Q -> (y <= 1)%Q -> 0 <= Q2R y <= 1.
Proof.
  intros H0 H1. apply Qle_Rle in H0, H1. q2r_numerals. lra.
Qed.

Lemma exp_neg_double (h : R) : exp (- h) = exp (- (h / 2)) * exp (- (h / 2)).
Proof. rewrite <- exp_plus. f_equal. field. Qed.

Lemma ln_two_pi_upper : ln (2 * PI) < Q2R ln2pi_hi.
Proof.
  set (y := half ln2pi_hi).
  assert (Hy : 0 <= Q2R y <= 1)
    by (apply Q2R_unit_interval; vm_compute; discriminate).
  destruct (exp_neg_Q_bounds y 8 Hy) as [_ Hup].
  change (alt_sumQ (exp_termQ y) (2 * 8)) with (exp_neg_hi y) in Hup.
  assert (Hchk : (2 * pi_hi * (exp_neg_hi y * exp_neg_hi y) < 1)%Q)
    by (vm_compute; reflexivity).
  apply Qlt_Rlt in Hchk. rewrite !Q2R_mult in Hchk. q2r_numerals.
  destruct PI_enclosure as [_ Hpi]. pose proof PI_RGT_0 as Hpos.
  set (h := Q2R ln2pi_hi).
  assert (Ey : Q2R y = h / 2) by apply Q2R_half.
  rewrite Ey in Hup.
  pose proof (exp_pos (- (h / 2))) as He.
  pose proof (exp_neg_double h) as Hd.
  set (a := Q2R (exp_neg_hi y)) in *. set (e := exp (- (h / 2))) in *.
  assert (Hsq : e * e <= a * a) by nra.
  assert (Hlt : 2 * PI * exp (- h) < 1).
  { rewrite Hd. 
    apply Rle_lt_trans with (2 * Q2R pi_hi * (a * a)); [|exact Hchk].
    assert (0 < e * e) by nra. nra. }
  rewrite <- (ln_exp h). apply ln_increasing; [lra|].
  pose proof (exp_pos h) as Hh.
  assert (Hone : exp (- h) * exp h = 1)
    by (rewrite <- exp_plus; replace (- h + h) with 0 by ring; apply exp_0).
  nra.
Qed.

Lemma ln_two_pi_lower : Q2R ln2pi_lo < ln (2 * PI).
Proof.
  set (y := half ln2pi_lo).
  assert (Hy : 0 <= Q2R y <= 1)
    by (apply Q2R_unit_interval; vm_compute; discriminate).
  destruct (exp_neg_Q_bounds y 8 Hy) as [Hlow _].
  change (alt_sumQ (exp_termQ y) (S (2 * 8))) with (exp_neg_lo y) in Hlow.
  assert (Hchk : (1 < 2 * pi_lo * (exp_neg_lo y * exp_neg_lo y))%Q)
    by (vm_compute; reflexivity).
  assert (Hb : (0 < exp_neg_lo y)%Q) by (vm_compute; reflexivity).
  apply Qlt_Rlt in Hchk, Hb. rewrite !Q2R_mult in Hchk. q2r_numerals.
  destruct PI_enclosure as [Hpi _]. pose proof PI_RGT_0 as Hpos.
  set (h := Q2R ln2pi_lo).
  assert (Ey : Q2R y = h / 2) by apply Q2R_half.
  rewrite Ey in Hlow.
  pose proof (exp_neg_double h) as Hd.
  set (b := Q2R (exp_neg_lo y)) in *. set (e := exp (- (h / 2))) in *.
  assert (Hsq : b * b <= e * e) by nra.
  assert (Hplo : 0 < Q2R pi_lo).
  { assert (0 < b * b) by nra. nra. }
  assert (Hlt : 1 < 2 * PI * exp (- h)).
  { rewrite Hd.
    apply Rlt_le_trans with (2 * Q2R pi_lo * (b * b)); [exact Hchk|].
    assert (0 < b * b) by nra. nra. }
  rewrite <- (ln_exp h). apply ln_increasing; [apply exp_pos|].
  pose proof (exp_pos h) as Hh.
  assert (Hone : exp (- h) * exp h = 1)
    by (rewrite <- exp_plus; replace (- h + h) with 0 by ring; apply exp_0).
  pose proof (exp_pos (- h)). nra.
Qed.

Lemma ln_two_pi_enclosure : 1.837877066 < ln (2 * PI) < 1.8378770668.
Proof.
  pose proof ln_two_pi_lower as Hl. pose proof ln_two_pi_upper as Hu.
  unfold ln2pi_lo, ln2pi_hi, Q2R in Hl, Hu. simpl in Hl, Hu. lra.
Qed.

(** ** The value on the recorded array *)

Lemma recorded_sum_sq :
  np_sum (map (fun x => (x - 1.0) ^ 2) recorded_data) = 811.157742407994408.
Proof.
  unfold recorded_data, np_sum. cbn [map fold_right]. lra.
Qed.

Lemma recorded_closed_form_enclosure :
  451.52579785 < nll_closed_form 1.0 1.0 recorded_data < 451.52579788.
Proof.
  unfold nll_closed_form. rewrite recorded_sum_sq.
  replace (INR (length recorded_data)) with 50
    by (unfold recorded_data; simpl length; rewrite INR_IZR_INZ; reflexivity).
  replace (2 * PI * 1.0) with (2 * PI) by lra.
  pose proof ln_two_pi_enclosure as H. lra.
Qed.

(** Against C10 as stated: on the recorded array the function does not
    return the recorded value; the two differ in the seventh decimal. *)
Lemma recorded_example_not_exact :
  outcome (neg_log_llh PyFloat [1.0; 1.0] recorded_data)
  <> inr (Fin recorded_output).
Proof.
  rewrite neg_log_llh_pos by lra. unfold outcome; simpl snd.
  intro H. injection H as H.
  pose proof recorded_closed_form_enclosure as He.
  unfold recorded_output in H. lra.
Qed.

(** C10, amended.  Applied to the recorded 50-element array with
    theta = [1.0, 1.0], [neg_log_llh] returns a value between 451.52579785
    and 451.52579788: it agrees with the recorded output 451.52579798454957
    to within 1.4e-7, and is not equal to it (the array is recorded rounded
    to eight decimals). *)
Theorem recorded_example_within_display_rounding :
  exists r : R,
    outcome (neg_log_llh PyFloat [1.0; 1.0] recorded_data) = inr (Fin r)
    /\ 451.52579785 < r < 451.52579788
    /\ Rabs (r - recorded_output) < 0.00000014
    /\ r <> recorded_output.
Proof.
  exists (nll_closed_form 1.0 1.0 recorded_data).
  pose proof recorded_closed_form_enclosure as He.
  split; [rewrite neg_log_llh_pos by lra; reflexivity|].
  split; [exact He|].
  unfold recorded_output.
  split; [apply Rabs_def1; lra | lra].
Qed.

(** * Further properties of [neg_log_llh] *)

(** The function sees the data only through its length and its sum of
    squared deviations. *)
Lemma neg_log_llh_ext (k : scalar) (theta d1 d2 : list R) :
  length d1 = length d2 ->
  (forall mu, np_sum (ndarray_sq (ndarray_sub d1 mu))
              = np_sum (ndarray_sq (ndarray_sub d2 mu))) ->
  neg_log_llh k theta d1 = neg_log_llh k theta d2.
Proof.
  intros Hlen Hsq.
  destruct theta as [|mu [|sigma2 rest]]; try reflexivity.
  unfold neg_log_llh, getitem, bind, ret, len; simpl.
  rewrite Hlen, (Hsq mu). reflexivity.
Qed.

Lemma sum_sq_expand (data : list R) (mu : R) :
  np_sum (ndarray_sq (ndarray_sub data mu))
  = np_sum (map (fun x => x ^ 2) data) - 2 * mu * np_sum data
    + INR (length data) * mu ^ 2.
Proof.
  rewrite sq_sub_map.
  induction data as [|x data IH].
  - simpl. ring.
  - change (length (x :: data)) with (S (length data)). rewrite S_INR.
    cbn [map]. rewrite !np_sum_cons, IH. ring.
Qed.

(** X2. Sufficient statistics: two arrays with the same length, the same sum
    and the same sum of squares give the same result, for every parameter
    vector. *)
Theorem neg_log_llh_sufficient_statistics
  (k : scalar) (theta d1 d2 : list R) :
  length d1 = length d2 ->
  np_sum d1 = np_sum d2 ->
  np_sum (map (fun x => x ^ 2) d1) = np_sum (map (fun x => x ^ 2) d2) ->
  neg_log_llh k theta d1 = neg_log_llh k theta d2.
Proof.
  intros Hlen Hsum Hsq. apply neg_log_llh_ext; [exact Hlen|].
  intro mu. rewrite !sum_sq_expand, Hlen, Hsum, Hsq. reflexivity.
Qed.

Lemma neg_log_llh_sufficient_statistics_witness :
  neg_log_llh PyFloat [1; 2] [0; 3; 3] = neg_log_llh PyFloat [1; 2] [1; 1; 4].
Proof.
  apply (neg_log_llh_sufficient_statistics PyFloat [1; 2] [0; 3; 3] [1; 1; 4]).
  - reflexivity.
  - simpl. lra.
  - simpl. lra.
Defined.

Lemma np_sum_perm (a b : list R) : Permutation a b -> np_sum a = np_sum b.
Proof.
  induction 1 as [| x a b _ IH | x y a | a b c _ IH1 _ IH2].
  - reflexivity.
  - rewrite !np_sum_cons, IH. reflexivity.
  - rewrite !np_sum_cons. ring.
  - now rewrite IH1.
Qed.

(** X3. The order of the data points does not matter. *)
Theorem neg_log_llh_permutation (k : scalar) (theta d1 d2 : list R) :
  Permutation d1 d2 ->
  neg_log_llh k theta d1 = neg_log_llh k theta d2.
Proof.
  intro Hp. apply neg_log_llh_ext.
  - now apply Permutation_length.
  - intro mu. apply np_sum_perm. unfold ndarray_sq, ndarray_sub.
    now do 2 apply Permutation_map.
Qed.

Lemma neg_log_llh_permutation_witness :
  neg_log_llh PyFloat [1; 2] [3; 4; 5] = neg_log_llh PyFloat [1; 2] [4; 3; 5].
Proof.
  apply (neg_log_llh_permutation PyFloat [1; 2] [3; 4; 5] [4; 3; 5]).
  apply perm_swap.
Defined.



(** ** Minimisers *)

Lemma nonempty_length_pos (data : list R) : data <> [] -> 0 < INR (length data).
Proof.
  intro H. destruct data as [|x data]; [contradiction|].
  apply lt_0_INR. simpl. lia.
Qed.

Lemma ndarray_mean_nonempty (data : list R) :
  data <> [] -> ndarray_mean data = Fin (np_sum data / INR (length data)).
Proof.
  intro H. destruct data; [contradiction | reflexivity].
Qed.

Lemma ndarray_var_nonempty (data : list R) :
  data <> [] ->
  ndarray_var data
  = Fin (np_sum (map (fun x => (x - np_sum data / INR (length data)) ^ 2) data)
         / INR (length data)).
Proof.
  intro H. unfold ndarray_var. rewrite ndarray_mean_nonempty by assumption.
  do 3 f_equal. apply map_ext. intro x. apply pow2_abs.
Qed.

Lemma centred_sum_zero (data : list R) :
  data <> [] ->
  np_sum (map (fun x => x - np_sum data / INR (length data)) data) = 0.
Proof.
  intro H. pose proof (nonempty_length_pos data H).
  rewrite np_sum_shift. field. lra.
Qed.

(** X6. For any fixed positive variance, moving [mu] away from the sample mean
    [m] costs exactly [n (mu - m)^2 / (2 sigma2)]: the sample mean is the best
    [mu] whatever the variance. *)
Theorem neg_log_llh_gap_in_mu (k : scalar) (mu sigma2 : R) (data : list R) :
  data <> [] -> 0 < sigma2 ->
  exists m r0 : R,
    ndarray_mean data = Fin m
    /\ outcome (neg_log_llh k [m; sigma2] data) = inr (Fin r0)
    /\ outcome (neg_log_llh k [mu; sigma2] data)
       = inr (Fin (r0 + INR (length data) * (mu - m) ^ 2 / (2 * sigma2))).
Proof.
  intros Hne Hs.
  exists (np_sum data / INR (length data)), 
         (nll_closed_form (np_sum data / INR (length data)) sigma2 data).
  split; [now apply ndarray_mean_nonempty|].
  rewrite !neg_log_llh_pos by assumption. unfold outcome; cbn [snd].
  split; [reflexivity|]. do 2 f_equal.
  unfold nll_closed_form.
  rewrite (sum_sq_recentre data (np_sum data / INR (length data)) mu).
  rewrite centred_sum_zero by assumption.
  set (m := np_sum data / INR (length data)).
  replace ((m - mu) ^ 2) with ((mu - m) ^ 2) by ring.
  field. lra.
Qed.

Lemma neg_log_llh_gap_in_mu_witness :
  exists m r0 : R,
    ndarray_mean [1; 3] = Fin m
    /\ outcome (neg_log_llh PyFloat [m; 4] [1; 3]) = inr (Fin r0)
    /\ outcome (neg_log_llh PyFloat [5; 4] [1; 3])
       = inr (Fin (r0 + INR (length [1; 3]) * (5 - m) ^ 2 / (2 * 4))).
Proof.
  apply (neg_log_llh_gap_in_mu PyFloat 5 4 [1; 3]); [discriminate | lra].
Defined.

(** X7. For a fixed [mu] that some data point differs from, the mean squared
    deviation about [mu] is the one best variance. *)
Theorem neg_log_llh_best_variance (k : scalar) (mu : R) (data : list R) :
  (exists x, In x data /\ x <> mu) ->
  exists s best : R,
    s = np_sum (map (fun x => (x - mu) ^ 2) data) / INR (length data)
    /\ 0 < s
    /\ outcome (neg_log_llh k [mu; s] data) = inr (Fin best)
    /\ forall sigma2 : R, 0 < sigma2 ->
         exists r : R,
           outcome (neg_log_llh k [mu; sigma2] data) = inr (Fin r)
           /\ best <= r
           /\ (r = best -> sigma2 = s).
Proof.
  intros (x0 & Hin & Hx0).
  assert (Hne : data <> []) by (intro E; subst data; destruct Hin).
  pose proof (nonempty_length_pos data Hne) as Hn.
  set (n := INR (length data)) in *.
  set (q := np_sum (map (fun x => (x - mu) ^ 2) data)).
  assert (Hq : 0 < q).
  { destruct (np_sum_sq_about_nonneg data mu) as [Hlt | Heq]; [exact Hlt|].
    exfalso. apply Hx0.
    assert (Hz : (x0 - mu) ^ 2 = 0).
    { apply (np_sum_nonneg_zero (fun x => (x - mu) ^ 2) data);
        [intro; apply pow2_ge_0 | now symmetry | exact Hin]. }
    assert (x0 - mu = 0) by nra. lra. }
  assert (Hs : 0 < q / n) by now apply Rdiv_lt_0_compat.
  exists (q / n), (nll_closed_form mu (q / n) data).
  split; [reflexivity|]. split; [exact Hs|].
  split; [now rewrite neg_log_llh_pos|].
  intros sigma2 Hs2. exists (nll_closed_form mu sigma2 data).
  split; [now rewrite neg_log_llh_pos|].
  assert (Eq : q = n * (q / n)) by (field; lra).
  pose proof (nll_gap n mu (q / n) q mu sigma2 Hn Hs Hs2 Eq) as G.
  cbv zeta in G. unfold nll_closed_form. fold n. fold q.
  replace (q + 2 * (mu - mu) * 0 + n * (mu - mu) ^ 2) with q in G by ring.
  destruct G as [G1 G2]. split; [exact G1|].
  intro E. now apply G2.
Qed.

Lemma neg_log_llh_best_variance_witness :
  exists s best : R,
    s = np_sum (map (fun x => (x - 2) ^ 2) [1; 3]) / INR (length [1; 3])
    /\ 0 < s
    /\ outcome (neg_log_llh PyFloat [2; s] [1; 3]) = inr (Fin best)
    /\ forall sigma2 : R, 0 < sigma2 ->
         exists r : R,
           outcome (neg_log_llh PyFloat [2; sigma2] [1; 3]) = inr (Fin r)
           /\ best <= r
           /\ (r = best -> sigma2 = s).
Proof.
  apply (neg_log_llh_best_variance PyFloat 2 [1; 3]).
  exists 1. split; [simpl; auto | lra].
Defined.

(** X8. The value at the minimum: [n/2 * (1 + ln(2 pi v))], with [v] the
    population variance. *)
Theorem neg_log_llh_minimum_value (k : scalar) (data : list R) :
  two_distinct data ->
  exists m v : R,
    ndarray_mean data = Fin m
    /\ ndarray_var data = Fin v
    /\ outcome (neg_log_llh k [m; v] data)
       = inr (Fin (INR (length data) / 2 * (1 + ln (2 * PI * v)))).
Proof.
  intro Hd.
  assert (Hne : data <> []).
  { destruct Hd as (a & _ & Ha & _). intro E; subst data; destruct Ha. }
  pose proof (nonempty_length_pos data Hne) as Hn.
  set (m := np_sum data / INR (length data)).
  pose proof (two_distinct_sum_sq_pos data m Hd) as Hq.
  exists m, (np_sum (map (fun x => (x - m) ^ 2) data) / INR (length data)).
  split; [now apply ndarray_mean_nonempty|].
  split; [now apply ndarray_var_nonempty|].
  set (q := np_sum (map (fun x => (x - m) ^ 2) data)) in *.
  assert (Hv : 0 < q / INR (length data)) by now apply Rdiv_lt_0_compat.
  rewrite neg_log_llh_pos by assumption. unfold outcome; cbn [snd].
  do 2 f_equal. unfold nll_closed_form. fold q. field. lra.
Qed.

Lemma neg_log_llh_minimum_value_witness :
  exists m v : R,
    ndarray_mean [1; 3] = Fin m
    /\ ndarray_var [1; 3] = Fin v
    /\ outcome (neg_log_llh PyFloat [m; v] [1; 3])
       = inr (Fin (INR (length [1; 3]) / 2 * (1 + ln (2 * PI * v)))).
Proof.
  apply (neg_log_llh_minimum_value PyFloat [1; 3]).
  exists 1, 3. simpl. repeat split; auto. lra.
Defined.

(** * The TensorFlow route *)

Lemma reduce_sum_cons (v : float64) (a : list float64) :
  reduce_sum (v :: a) = fadd v (reduce_sum a).
Proof. reflexivity. Qed.

Lemma tf_nll_closed (mu sigma : R) (data : list R) :
  0 < sigma ->
  tf_nll mu sigma data = Fin (nll_closed_form mu (sigma ^ 2) data).
Proof.
  intro Hs.
  assert (Hs2 : 0 < sigma ^ 2) by (apply pow_lt; exact Hs).
  pose proof PI_RGT_0 as HP.
  assert (Eln : ln (2 * PI * sigma ^ 2) = ln (2 * PI) + 2 * ln sigma).
  { rewrite ln_mult by lra. rewrite ln_pow by assumption. simpl INR. ring. }
  unfold tf_nll, nll_closed_form, normal_log_pdf.
  destruct (Rlt_dec 0 sigma) as [_ | n]; [|contradiction].
  rewrite Eln. replace (-1.0) with (-1) by lra.
  induction data as [|x data IH].
  - simpl. f_equal. unfold Rdiv. ring.
  - change (length (x :: data)) with (S (length data)). rewrite S_INR.
    cbn [map]. rewrite reduce_sum_cons, IH, np_sum_cons.
    cbn [fmul fadd]. f_equal. field. lra.
Qed.

(** X13. The TensorFlow objective at [(mu, sigma)] is what [neg_log_llh]
    returns at [(mu, sigma^2)]: the same function, parametrised by the
    standard deviation instead of the variance. *)
Theorem tf_nll_is_neg_log_llh (k : scalar) (mu sigma : R) (data : list R) :
  0 < sigma ->
  outcome (neg_log_llh k [mu; sigma ^ 2] data) = inr (tf_nll mu sigma data).
Proof.
  intro Hs.
  assert (Hs2 : 0 < sigma ^ 2) by (apply pow_lt; exact Hs).
  rewrite tf_nll_closed by assumption. now rewrite neg_log_llh_pos.
Qed.

Lemma tf_nll_is_neg_log_llh_witness :
  outcome (neg_log_llh PyFloat [1; 2 ^ 2] [3; 5]) = inr (tf_nll 1 2 [3; 5]).
Proof.
  apply (tf_nll_is_neg_log_llh PyFloat 1 2 [3; 5]). lra.
Defined.

(** The closed form is smallest at the sample mean and the population
    variance, and only there. *)
Lemma nll_closed_form_minimum (data : list R) :
  two_distinct data ->
  let m := np_sum data / INR (length data) in
  let v := np_sum (map (fun x => (x - m) ^ 2) data) / INR (length data) in
  0 < v
  /\ forall mu sigma2 : R, 0 < sigma2 ->
       nll_closed_form m v data <= nll_closed_form mu sigma2 data
       /\ (nll_closed_form mu sigma2 data = nll_closed_form m v data ->
           mu = m /\ sigma2 = v).
Proof.
  intros Hd m v.
  pose proof (two_distinct_length data Hd) as Hn.
  pose proof (two_distinct_sum_sq_pos data m Hd) as Hq.
  assert (Hne : data <> []).
  { destruct Hd as (a & _ & Ha & _). intro E; subst data; destruct Ha. }
  assert (Hv : 0 < v) by (unfold v; now apply Rdiv_lt_0_compat).
  split; [exact Hv|].
  intros mu sigma2 Hs.
  unfold nll_closed_form.
  rewrite (sum_sq_recentre data m mu).
  assert (Ec : np_sum (map (fun x => x - m) data) = 0)
    by (apply centred_sum_zero; assumption).
  rewrite Ec.
  apply (nll_gap (INR (length data)) m v
           (np_sum (map (fun x => (x - m) ^ 2) data)) mu sigma2 Hn Hv Hs).
  unfold v. field. lra.
Qed.

(** X15. The TensorFlow objective has one minimiser over [sigma > 0]: the
    sample mean and the square root of the population variance, the pair the
    session reports after training. *)
Theorem tf_nll_unique_minimizer (data : list R) :
  two_distinct data ->
  exists m v best : R,
    ndarray_mean data = Fin m
    /\ ndarray_var data = Fin v
    /\ tf_nll m (sqrt v) data = Fin best
    /\ forall mu sigma : R, 0 < sigma ->
         exists r : R,
           tf_nll mu sigma data = Fin r
           /\ best <= r
           /\ (r = best -> mu = m /\ sigma = sqrt v).
Proof.
  intro Hd.
  assert (Hne : data <> []).
  { destruct Hd as (a & _ & Ha & _). intro E; subst data; destruct Ha. }
  destruct (nll_closed_form_minimum data Hd) as [Hv Hmin].
  set (m := np_sum data / INR (length data)) in *.
  set (v := np_sum (map (fun x => (x - m) ^ 2) data) / INR (length data)) in *.
  assert (Hsq : 0 < sqrt v) by now apply sqrt_lt_R0.
  assert (Esq : sqrt v ^ 2 = v) by (apply pow2_sqrt; lra).
  exists m, v, (nll_closed_form m v data).
  split; [now apply ndarray_mean_nonempty|].
  split; [now apply ndarray_var_nonempty|].
  split.
  { rewrite tf_nll_closed by assumption. now rewrite Esq. }
  intros mu sigma Hs.
  assert (Hs2 : 0 < sigma ^ 2) by (apply pow_lt; exact Hs).
  exists (nll_closed_form mu (sigma ^ 2) data).
  split; [now apply tf_nll_closed|].
  destruct (Hmin mu (sigma ^ 2) Hs2) as [Hle Heq].
  split; [exact Hle|].
  intro Er. destruct (Heq Er) as [Emu Es]. split; [exact Emu|].
  rewrite <- Es. symmetry. apply sqrt_pow2. lra.
Qed.

Lemma tf_nll_unique_minimizer_witness :
  exists m v best : R,
    ndarray_mean [1; 3] = Fin m
    /\ ndarray_var [1; 3] = Fin v
    /\ tf_nll m (sqrt v) [1; 3] = Fin best
    /\ forall mu sigma : R, 0 < sigma ->
         exists r : R,
           tf_nll mu sigma [1; 3] = Fin r
           /\ best <= r
           /\ (r = best -> mu = m /\ sigma = sqrt v).
Proof.
  apply (tf_nll_unique_minimizer [1; 3]).
  exists 1, 3. simpl. repeat split; auto. lra.
Defined.

(** ** The gradient-descent step *)

Lemma derivable_pt_lim_quadratic (a b c x : R) :
  derivable_pt_lim (fun t => a + b * t + c * t ^ 2) x (b + 2 * c * x).
Proof.
  apply derivable_pt_lim_ext
    with (f := (fct_cte a + mult_real_fct b id
                + mult_real_fct c (fun t => t ^ 2))%F).
  - intro t. unfold plus_fct, fct_cte, mult_real_fct, id. ring.
  - replace (b + 2 * c * x) with (0 + b * 1 + c * (INR 2 * x ^ pred 2))
      by (simpl; ring).
    apply derivable_pt_lim_plus; [apply derivable_pt_lim_plus|].
    + apply derivable_pt_lim_const.
    + apply derivable_pt_lim_scal. apply derivable_pt_lim_id.
    + apply derivable_pt_lim_scal. apply derivable_pt_lim_pow.
Qed.

(** The closed-form pair is the gradient of the objective. *)
Lemma nll_gradient_is_gradient : is_gradient_of_nll nll_gradient.
Proof.
  intros mu sigma data Hs.
  pose proof PI_RGT_0 as HP.
  assert (Hs2 : 0 < sigma ^ 2) by (apply pow_lt; exact Hs).
  set (n := INR (length data)).
  set (S1 := np_sum data).
  set (S2 := np_sum (map (fun x => x ^ 2) data)).
  unfold nll_gradient, tf_nll_value, nll_closed_form; cbn [fst snd]. fold n.
  split.
  - apply derivable_pt_lim_ext
      with (f := fun m =>
                   (n / 2 * ln (2 * PI * sigma ^ 2) + S2 / (2 * sigma ^ 2))
                   + (- S1 / sigma ^ 2) * m
                   + (n / (2 * sigma ^ 2)) * m ^ 2).
    + intro m. rewrite <- sq_sub_map, sum_sq_expand. fold n S1 S2.
      field. lra.
    + replace (- np_sum (map (fun x => x - mu) data) / sigma ^ 2)
        with (- S1 / sigma ^ 2 + 2 * (n / (2 * sigma ^ 2)) * mu).
      * apply derivable_pt_lim_quadratic.
      * rewrite np_sum_shift. fold n S1. field. lra.
  - set (Q := np_sum (map (fun x => (x - mu) ^ 2) data)).
    set (g1 := fun s : R => 0 + 0 * s + 2 * PI * s ^ 2).
    set (g2 := fun s : R => 0 + 0 * s + 2 * s ^ 2).
    apply derivable_pt_lim_ext
      with (f := plus_fct (mult_real_fct (n / 2) (comp ln g1))
                   (mult_real_fct Q (div_fct (fct_cte 1) g2))).
    + intro s. unfold plus_fct, mult_real_fct, comp, div_fct, fct_cte, g1, g2.
      replace (0 + 0 * s + 2 * PI * s ^ 2) with (2 * PI * s ^ 2) by ring.
      replace (0 + 0 * s + 2 * s ^ 2) with (2 * s ^ 2) by ring.
      ring.
    + replace (n / sigma - Q / sigma ^ 3)
        with (n / 2 * (/ (0 + 0 * sigma + 2 * PI * sigma ^ 2)
                       * (0 + 2 * (2 * PI) * sigma))
              + Q * ((0 * (0 + 0 * sigma + 2 * sigma ^ 2)
                      - (0 + 2 * 2 * sigma) * 1)
                     / Rsqr (0 + 0 * sigma + 2 * sigma ^ 2)))
        by (unfold Rsqr; field; lra).
      apply derivable_pt_lim_plus.
      * apply derivable_pt_lim_scal.
        apply derivable_pt_lim_comp.
        -- apply derivable_pt_lim_quadratic.
        -- apply derivable_pt_lim_ln. unfold g1. nra.
      * apply derivable_pt_lim_scal.
        apply (derivable_pt_lim_div (fct_cte 1) g2).
        -- apply derivable_pt_lim_const.
        -- apply derivable_pt_lim_quadratic.
        -- unfold g2. nra.
Qed.

Section GradientDescent.

Variable grad : gradient.
Hypothesis grad_ok : is_gradient_of_nll grad.

Lemma gradient_unique (mu sigma : R) (data : list R) :
  0 < sigma -> grad mu sigma data = nll_gradient mu sigma data.
Proof.
  intro Hs.
  destruct (grad_ok mu sigma data Hs) as [G1 G2].
  destruct (nll_gradient_is_gradient mu sigma data Hs) as [N1 N2].
  pose proof (uniqueness_limite _ _ _ _ G1 N1) as E1.
  pose proof (uniqueness_limite _ _ _ _ G2 N2) as E2.
  destruct (grad mu sigma data), (nll_gradient mu sigma data).
  simpl in *. now subst.
Qed.

(** X16. Whatever computes the partial derivatives of the objective, one step
    of gradient descent at a non-zero rate leaves [(mu, sigma)], [sigma > 0],
    where it is exactly when [mu] is the sample mean and [sigma] the square
    root of the population variance: the only point the training loop can
    settle on is the estimate of the other routes. *)
Theorem train_step_fixed_point
  (rate mu sigma : R) (data : list R) :
  rate <> 0 -> data <> [] -> 0 < sigma ->
  exists m v : R,
    ndarray_mean data = Fin m
    /\ ndarray_var data = Fin v
    /\ (train_step grad rate data (mu, sigma) = (mu, sigma)
        <-> mu = m /\ sigma = sqrt v).
Proof.
  intros Hr Hne Hs.
  pose proof (nonempty_length_pos data Hne) as Hn.
  set (n := INR (length data)) in *.
  set (m := np_sum data / n).
  set (q := np_sum (map (fun x => (x - m) ^ 2) data)).
  exists m, (q / n).
  split; [now apply ndarray_mean_nonempty|].
  split; [now apply ndarray_var_nonempty|].
  assert (Hq : 0 <= q) by apply np_sum_sq_about_nonneg.
  assert (Hv : 0 <= q / n).
  { apply Rmult_le_pos; [exact Hq | left; now apply Rinv_0_lt_compat]. }
  assert (Hs2 : 0 < sigma ^ 2) by (apply pow_lt; exact Hs).
  assert (Hs3 : 0 < sigma ^ 3) by (apply pow_lt; exact Hs).
  unfold train_step. rewrite gradient_unique by assumption.
  unfold nll_gradient. fold n.
  rewrite np_sum_shift. fold n.
  set (Q := np_sum (map (fun x => (x - mu) ^ 2) data)).
  assert (EQ : Q = q + n * (m - mu) ^ 2).
  { unfold Q. rewrite (sum_sq_recentre data m mu).
    assert (Ec : np_sum (map (fun x => x - m) data) = 0)
      by (apply centred_sum_zero; assumption).
    rewrite Ec. fold q n. ring. }
  assert (Esum : np_sum data = n * m) by (unfold m; field; lra).
  rewrite Esum.
  split.
  - intro E.
    pose proof (f_equal fst E) as E1. pose proof (f_equal snd E) as E2.
    cbn [fst snd] in E1, E2.
    assert (G1 : - (n * m - n * mu) / sigma ^ 2 = 0).
    { assert (Hz : rate * (- (n * m - n * mu) / sigma ^ 2) = 0) by lra.
      destruct (Rmult_integral _ _ Hz); [contradiction | assumption]. }
    assert (G2 : n / sigma - Q / sigma ^ 3 = 0).
    { assert (Hz : rate * (n / sigma - Q / sigma ^ 3) = 0) by lra.
      destruct (Rmult_integral _ _ Hz); [contradiction | assumption]. }
    assert (Emu : mu = m).
    { apply (Rmult_eq_compat_r (sigma ^ 2)) in G1.
      unfold Rdiv in G1. rewrite Rmult_assoc, Rinv_l in G1 by lra.
      assert (n * (mu - m) = 0) by lra.
      assert (mu - m = 0) by nra. lra. }
    split; [exact Emu|].
    subst mu. replace (q + n * (m - m) ^ 2) with q in EQ by ring.
    assert (Eqs : q = n * sigma ^ 2).
    { apply (Rmult_eq_compat_r (sigma ^ 3)) in G2.
      unfold Rdiv in G2. rewrite Rmult_minus_distr_r in G2.
      rewrite (Rmult_assoc Q), Rinv_l in G2 by lra.
      replace (n * / sigma * sigma ^ 3) with (n * sigma ^ 2) in G2
        by (field; lra).
      lra. }
    replace (q / n) with (sigma ^ 2) by (rewrite Eqs; field; lra).
    symmetry. apply sqrt_pow2. lra.
  - intros [Emu Es]. subst mu.
    replace (q + n * (m - m) ^ 2) with q in EQ by ring.
    assert (Eqs : q = n * sigma ^ 2).
    { assert (E2 : sigma ^ 2 = q / n)
        by (rewrite Es; apply pow2_sqrt; exact Hv).
      rewrite E2. field. lra. }
    rewrite EQ, Eqs. f_equal; field; lra.
Qed.

End GradientDescent.

Lemma train_step_fixed_point_witness :
  exists m v : R,
    ndarray_mean [1; 3] = Fin m
    /\ ndarray_var [1; 3] = Fin v
    /\ (train_step nll_gradient 0.01 [1; 3] (2, 1) = (2, 1)
        <-> 2 = m /\ 1 = sqrt v).
Proof.
  apply (train_step_fixed_point nll_gradient nll_gradient_is_gradient
           0.01 2 1 [1; 3]).
  - lra.
  - discriminate.
  - lra.
Defined.

(** * The notebook's functions in a running kernel *)

Section NotebookFunctions.

Local Close Scope R_scope.
Local Open Scope string_scope.

(** Enough fuel: a call that ended at some depth ends the same way at every
    larger depth. *)
Lemma call_enough (n fuel : nat) (K : kernel) (ps : list string)
  (body : list stmt) (r : res kernel) :
  call (interp_at n) K ps body = r ->
  r <> Fault OutOfFuel ->
  (n <= fuel)%nat ->
  call (interp_at fuel) K ps body = r.
Proof.
  intros Hr Hdef Hle.
  destruct (call_mono _ _ (interp_at_le n fuel Hle) K ps body) as [E | E];
    congruence.
Qed.

(** *** Name resolution, step by step *)

Lemma lookup_bound (K : kernel) (L : scope) (x : string) :
  is_bound L x = true -> lookup K L x = Ok K.
Proof.
  destruct L as [l|]; [|discriminate].
  simpl. intro H. unfold lookup. now rewrite H.
Qed.

Lemma lookup_free (K : kernel) (L : scope) (x : string) :
  is_local L x = false ->
  lookup K L x = if resolves K x then Ok K else Fault (NameError x).
Proof.
  destruct L as [l|]; [|reflexivity].
  simpl. intro H. apply orb_false_iff in H as [H1 H2].
  unfold lookup. now rewrite H1, H2.
Qed.

Lemma resolves_builtin (K : kernel) (x : string) :
  mem x builtins = true -> resolves K x = true.
Proof.
  intro H. unfold resolves. rewrite H.
  now destruct (mem x (globals K)).
Qed.

(** One level of the interpreter at the head of the left-hand side. *)
Ltac nb_unfold :=
  match goal with
  | |- ?l = ?r =>
      let l' := eval lazy head beta iota zeta delta
                  [call call_scope interp_at step i_eval i_block run_block
                   exec_step eval_step fold_res bind_res app map fst snd
                   flat_map binds bind_name dotted String.append call_back
                   own_function bound_now assigned names_of_targets] in l in
      progress change (l' = r)
  end.

(** Resolve the names that are read next, in a kernel that differs from
    [K0] by logged calls only. *)
Ltac nb_names K0 :=
  repeat match goal with
    | |- context [is_local ?L ?x] =>
        let b := eval vm_compute in (is_local L x) in
        change (is_local L x) with b
    | |- context [lookup ?K ?L ?x] =>
        first [ rewrite (lookup_bound K L x) by reflexivity
              | rewrite (lookup_free K L x) by reflexivity ]
    | |- context [resolves ?K ?x] =>
        first [ rewrite (resolves_builtin K x) by reflexivity
              | progress change (resolves K x) with (resolves K0 x) ]
    | |- context [lookup_function ?K ?x] =>
        progress change (lookup_function K x) with (lookup_function K0 x)
    end.

Lemma resolves_global (K : kernel) (x : string) :
  mem x (globals K) = true -> resolves K x = true.
Proof. intro H. unfold resolves. now rewrite H. Qed.

(** X17. [neg_log_llh] reads two names from outside its body, [len] and [np]:
    called in any kernel in which [len] is still the builtin, it makes the
    three library calls [len], [np.log] and [np.sum], in this order, and
    returns, provided [np] resolves at module level; otherwise it stops with
    [NameError: np]. What it assigns ([mu], [sigma2], [n], [result]) is local:
    the bindings of the module, among them the notebook's own [mu] and
    [sigma2], are what they were. *)
Theorem neg_log_llh_call_names (K : kernel) (fuel : nat) :
  keeps_builtin K "len" ->
  (8 <= fuel)%nat ->
  call (interp_at fuel) K (fst neg_log_llh_def) (snd neg_log_llh_def)
  = if resolves K "np"
    then Ok (logged K ["len"; "np.log"; "np.sum"])
    else Fault (NameError "np").
Proof.
  intros Hf Hle. unfold keeps_builtin in Hf.
  apply (call_enough 8); [| |exact Hle].
  - change (fst neg_log_llh_def) with ["theta"; "data"].
    let b := eval vm_compute in (snd neg_log_llh_def) in
    change (snd neg_log_llh_def) with b.
    destruct (resolves K "np") eqn:Hnp;
      repeat (nb_unfold; nb_names K; rewrite ?Hf, ?Hnp);
      reflexivity.
  - destruct (resolves K "np"); discriminate.
Qed.

Lemma neg_log_llh_call_names_witness :
  call (interp_at 8) kernel_before_fit
    (fst neg_log_llh_def) (snd neg_log_llh_def)
  = if resolves kernel_before_fit "np"
    then Ok (logged kernel_before_fit ["len"; "np.log"; "np.sum"])
    else Fault (NameError "np").
Proof.
  apply (neg_log_llh_call_names kernel_before_fit 8).
  - vm_compute. reflexivity.
  - lia.
Defined.

(** X18. [print_log_llh] takes [mu] and [sigma2] but reads the array from the
    module: called in a kernel that has [neg_log_llh] as cell 12 defines it,
    it stops with [NameError: data] before [neg_log_llh] is entered unless
    [data] resolves at module level; if it does, and [np] resolves too, the
    call makes the library calls of [neg_log_llh] and then [print]. *)
Theorem print_log_llh_reads_module_data (K : kernel) (fuel : nat) :
  defines K "neg_log_llh" neg_log_llh_def ->
  keeps_builtin K "len" ->
  keeps_builtin K "print" ->
  (12 <= fuel)%nat ->
  call (interp_at fuel) K (fst print_log_llh_def) (snd print_log_llh_def)
  = if resolves K "data"
    then if resolves K "np"
         then Ok (logged K ["len"; "np.log"; "np.sum"; "print"])
         else Fault (NameError "np")
    else Fault (NameError "data").
Proof.
  intros [Hg Hd] Hl Hp Hle. unfold keeps_builtin in Hl, Hp.
  apply resolves_global in Hg.
  let b := eval vm_compute in neg_log_llh_def in
  change neg_log_llh_def with b in Hd.
  apply (call_enough 12); [| |exact Hle].
  - change (fst print_log_llh_def) with ["mu"; "sigma2"].
    let b := eval vm_compute in (snd print_log_llh_def) in
    change (snd print_log_llh_def) with b.
    destruct (resolves K "data") eqn:Hdata;
      [destruct (resolves K "np") eqn:Hnp|];
      repeat (nb_unfold; nb_names K; rewrite ?Hl, ?Hp, ?Hd, ?Hg, ?Hdata, ?Hnp);
      reflexivity.
  - destruct (resolves K "data"); [destruct (resolves K "np")|]; discriminate.
Qed.

Lemma print_log_llh_reads_module_data_witness :
  call (interp_at 12) kernel_before_fit
    (fst print_log_llh_def) (snd print_log_llh_def)
  = if resolves kernel_before_fit "data"
    then if resolves kernel_before_fit "np"
         then Ok (logged kernel_before_fit
                    ["len"; "np.log"; "np.sum"; "print"])
         else Fault (NameError "np")
    else Fault (NameError "data").
Proof.
  apply (print_log_llh_reads_module_data kernel_before_fit 12).
  - split; vm_compute; reflexivity.
  - vm_compute. reflexivity.
  - vm_compute. reflexivity.
  - lia.
Defined.

(** *** Stepping through the notebooks *)

Lemma step_through_cell_mono (n m : nat) (src : list stmt) :
  (n <= m)%nat ->
  forall (K K1 : kernel) (r : option fault),
    step_through_cell n K src = (K1, r) ->
    r <> Some OutOfFuel ->
    step_through_cell m K src = (K1, r).
Proof.
  intro Hle. induction src as [|s src IH]; intros K K1 r E Hr; simpl in *.
  - exact E.
  - destruct (run_cell_mono n m K (Code [s]) Hle) as [E' | E'].
    + simpl in E'. rewrite E' in E. injection E as <- <-. now elim Hr.
    + simpl in E'. rewrite <- E'.
      destruct (a <-- i_block (interp_at n) K None [s];; Ok (fst (fst a)))
        as [K2 | f].
      * now apply IH.
      * exact E.
Qed.

Lemma step_through_mono (n m : nat) (cells : list cell) :
  (n <= m)%nat ->
  forall (i : nat) (K : kernel),
    ran_out (fst (step_through n i K cells)) = false ->
    step_through m i K cells = step_through n i K cells.
Proof.
  intro Hle. induction cells as [|c cells IH]; intros i K Hr.
  - reflexivity.
  - destruct c as [p | src]; cbn [step_through] in *.
    + now apply IH.
    + destruct (step_through_cell n K src) as [K1 r] eqn:E1.
      destruct (step_through n (S i) K1 cells) as [faults K2] eqn:E2.
      assert (Hrest : ran_out faults = false).
      { destruct r as [f|]; cbn [fst ran_out existsb] in Hr.
        - now apply orb_false_iff in Hr.
        - exact Hr. }
      assert (Hcell : r <> Some OutOfFuel).
      { intro Er. subst r. cbn in Hr. discriminate. }
      rewrite (step_through_cell_mono n m src Hle K K1 r E1 Hcell).
      rewrite IH by (rewrite E2; exact Hrest).
      rewrite E2. reflexivity.
Qed.

(** X19. Stepping through the four notebooks, each in a fresh kernel and
    carrying on after every error, three cells stop on a name that is not
    bound, and no other cell does: cell 19 of the modelling overview
    ([best_parameter]), and cells 45 ([stats]) and 47 ([mu_hat], which cell 45
    would have bound) of the MLE notebook. The TensorFlow section that follows
    them runs. *)
Theorem repository_name_errors (fuel : nat) :
  (fuel_enough <= fuel)%nat ->
  map (fun nb => fst (step_through fuel 0 fresh_kernel nb)) repository
  = [ [];
      [(19%nat, NameError "best_parameter")];
      [];
      [(45%nat, NameError "stats"); (47%nat, NameError "mu_hat")] ].
Proof.
  intro Hle. unfold repository. cbn [map].
  rewrite !(step_through_mono fuel_enough fuel _ Hle)
    by (vm_compute; reflexivity).
  vm_compute. reflexivity.
Qed.

Lemma repository_name_errors_witness :
  map (fun nb => fst (step_through 40 0 fresh_kernel nb)) repository
  = [ [];
      [(19%nat, NameError "best_parameter")];
      [];
      [(45%nat, NameError "stats"); (47%nat, NameError "mu_hat")] ].
Proof.
  apply (repository_name_errors 40). unfold fuel_enough. lia.
Defined.

End NotebookFunctions.
